(** * Browse-data front end: filter reconciliation, paginated file table,
      trial pagination and the legacy client-side file table.

    A shallow embedding of the state-handling code of
    - [src/components/browse-data/shared/FilterProvider.tsx],
    - the function-style [FileTable] (paginated fetch controller),
    - [usePaginatedTrials] of [TrialTable.tsx],
    - the legacy class-based [FileTable],
    followed by the properties proved about them.

    Conventions.  A JavaScript [number] that holds a page, a count or an
    identifier is a [Z] (fractions, NaN and infinities are outside the
    model).  [undefined] is [None].  React state and the URL query
    parameters are fields of an explicit state record; a state setter is a
    function on that record.  Code that can raise a [TypeError] lives in
    the [completion] monad. *)

From Stdlib Require Import ZArith List Ascii String Bool Lia Permutation Sorted.
From stdpp Require Import base option list strings gmap pretty.

Local Open Scope Z_scope.

(** ** Abrupt completion *)

Inductive error := TypeError.

Inductive completion (A : Type) :=
| Normal (a : A)
| Throw (e : error).
Arguments Normal {A} a.
Arguments Throw {A} e.

#[global] Instance completion_ret : MRet completion := fun A a => Normal a.
#[global] Instance completion_bind : MBind completion :=
  fun A B f c => match c with Normal a => f a | Throw e => Throw e end.

(** [Array.prototype.filter] with a callback that may throw: elements are
    visited in order and the first exception aborts the whole call. *)
Fixpoint filterM {A} (f : A -> completion bool) (l : list A) : completion (list A) :=
  match l with
  | [] => Normal []
  | x :: r =>
      b ← f x;
      r' ← filterM f r;
      Normal (if b : bool then x :: r' else r')
  end.

(** ** Strings as the code uses them *)

(** [s.split(sep)] for a one-character separator: never empty, an empty
    string yields one empty piece. *)
Fixpoint split (sep : ascii) (s : string) : list string :=
  match s with
  | EmptyString => [EmptyString]
  | String c rest =>
      if Ascii.eqb c sep then EmptyString :: split sep rest
      else match split sep rest with
           | piece :: pieces => String c piece :: pieces
           | [] => [String c EmptyString]
           end
  end.

(** [xs.join(sep)]. *)
Definition join (sep : string) (xs : list string) : string := String.concat sep xs.

(** [xs.join(sep)] when destructuring left some components [undefined]:
    [join] prints [undefined] as the empty string. *)
Definition join_opt (sep : string) (xs : list (option string)) : string :=
  join sep (map (default EmptyString) xs).

(** [s.startsWith(p)]. *)
Definition startsWith (s p : string) : bool := String.prefix p s.

(** [xs.includes(v)] on strings. *)
Definition includes (xs : list string) (v : string) : bool := existsb (String.eqb v) xs.

(** lodash [uniq]: keeps the first occurrence of every value, in order. *)
Definition uniq (xs : list string) : list string :=
  fold_left (fun seen x => if includes seen x then seen else seen ++ [x]) xs [].

(** A property key: [obj[undefined]] reads the property named "undefined". *)
Definition property_key (k : option string) : string := default "undefined"%string k.

(** Canonical array index of a property key ("0", "1", "17", ... but not
    "01", "" or "+1"). *)
Definition digit (c : ascii) : option N :=
  let n := N_of_ascii c in
  if ((48 <=? n) && (n <=? 57))%N then Some (n - 48)%N else None.

Fixpoint digits (s : string) (acc : N) : option N :=
  match s with
  | EmptyString => Some acc
  | String c rest =>
      match digit c with
      | Some d => digits rest (10 * acc + d)%N
      | None => None
      end
  end.

Definition array_index (key : string) : option nat :=
  match key with
  | EmptyString => None
  | String c rest =>
      if Ascii.eqb c "0" && negb (String.eqb rest EmptyString) then None
      else N.to_nat <$> digits key 0%N
  end.

(** * FilterProvider.tsx *)

Module FilterProvider.

(** [IFacetInfo]. *)
Record IFacetInfo := {
  label : string;
  count : Z;
  description : option string
}.

(** One entry of [IFacets.facets]:
    [Dictionary<IFacetInfo[]> | IFacetInfo[]]. *)
Inductive Group :=
| Nested (d : gmap string (list IFacetInfo))
| Flat (l : list IFacetInfo).

(** [IFacets].  The interface declares [facets] mandatory; the effect
    nevertheless guards against its absence ([newFacets.facets && ...]),
    so the model admits a catalogue without it. *)
Module IFacets.
Record t := {
  trial_ids : list IFacetInfo;
  facets : option (gmap string Group)
}.
End IFacets.

(** [IFilters]: the two array-valued query parameters. *)
Module IFilters.
Record t := {
  trial_ids : option (list string);
  facets : option (list string)
}.
End IFilters.

(** [keyof IFacets]. *)
Inductive FacetKey := K_trial_ids | K_facets.

Definition ARRAY_PARAM_DELIM : string := "|".
Definition DELIM_CHAR : ascii := "|".

(** ** The values a property read on the catalogue can produce

    Dictionaries are finite maps and arrays are lists.  A read returns an
    own property of its receiver (a key of a dictionary; an index or
    [length] of an array or string; a field of a facet record) and
    [undefined] for every other name.  JavaScript answers the same unless
    the name is one the receiver inherits from its prototype
    ([constructor], [toString], [filter], ...): what such a read returns
    depends on the host's built-in objects and is outside the model.  The
    one inherited member the code calls, [Array.prototype.filter], is
    modelled by [call_filter]. *)
Inductive value :=
| VUndefined
| VNumber (n : Z)
| VString (s : string)
| VInfo (i : IFacetInfo)
| VArray (l : list IFacetInfo)
| VDict (d : gmap string (list IFacetInfo))
| VGroups (g : gmap string Group).

Definition of_group (g : Group) : value :=
  match g with
  | Nested d => VDict d
  | Flat l => VArray l
  end.

(** [receiver[key]]; reading a property of [undefined] throws. *)
Definition get (receiver : value) (key : string) : completion value :=
  match receiver with
  | VUndefined => Throw TypeError
  | VNumber _ => Normal VUndefined
  | VString s =>
      if String.eqb key "length" then Normal (VNumber (Z.of_nat (String.length s)))
      else Normal (match array_index key ≫= (fun i => String.get i s) with
                   | Some c => VString (String c EmptyString)
                   | None => VUndefined
                   end)
  | VInfo i =>
      if String.eqb key "label" then Normal (VString (label i))
      else if String.eqb key "count" then Normal (VNumber (count i))
      else if String.eqb key "description"
           then Normal (from_option VString VUndefined (description i))
      else Normal VUndefined
  | VArray l =>
      if String.eqb key "length" then Normal (VNumber (Z.of_nat (length l)))
      else Normal (from_option VInfo VUndefined (array_index key ≫= (fun i => l !! i)))
  | VDict d => Normal (from_option VArray VUndefined (d !! key))
  | VGroups g => Normal (from_option of_group VUndefined (g !! key))
  end.

(** Truthiness, as tested by [&&], [||] and [if]. *)
Definition truthy (v : value) : bool :=
  match v with
  | VUndefined => false
  | VNumber n => negb (n =? 0)
  | VString s => negb (String.eqb s EmptyString)
  | VInfo _ | VArray _ | VDict _ | VGroups _ => true
  end.

(** [Array.isArray(v)]. *)
Definition isArray (v : value) : bool :=
  match v with VArray _ => true | _ => false end.

(** [v > 0]: a number compares by value; [undefined] converts to NaN and
    an array or dictionary of facet records to NaN or 0, so the comparison
    is false.  No [count] property read by the code is a string. *)
Definition gt_zero (v : value) : bool :=
  match v with
  | VNumber n => 0 <? n
  | _ => false
  end.

(** [receiver.filter(cb)]: only arrays have the method; calling the
    [undefined] found on any other receiver throws. *)
Definition call_filter (receiver : value) (cb : IFacetInfo -> bool)
  : completion (list IFacetInfo) :=
  match receiver with
  | VArray l => Normal (List.filter cb l)
  | _ => Throw TypeError
  end.

(** [sf.label === subfacet], where [subfacet] may be [undefined]. *)
Definition label_is (subfacet : option string) (sf : IFacetInfo) : bool :=
  match subfacet with
  | Some s => String.eqb (label sf) s
  | None => false
  end.

(** [facets[k]] and [newFacets.facets]. *)
Definition facets_of (k : FacetKey) (c : IFacets.t) : value :=
  match k with
  | K_trial_ids => VArray (IFacets.trial_ids c)
  | K_facets => from_option VGroups VUndefined (IFacets.facets c)
  end.

(** ** Component state: the [facets] state cell and the URL filters *)

Record State := {
  facets : option IFacets.t;
  filters : IFilters.t
}.

(** [filters[k]]. *)
Definition filters_of (k : FacetKey) (f : IFilters.t) : option (list string) :=
  match k with
  | K_trial_ids => IFilters.trial_ids f
  | K_facets => IFilters.facets f
  end.

(** [setFilters({ [k]: v })]: writes one query parameter and leaves the
    other in place. *)
Definition setFilter (k : FacetKey) (v : option (list string)) (st : State) : State :=
  {| facets := facets st;
     filters :=
       match k with
       | K_trial_ids => {| IFilters.trial_ids := v; IFilters.facets := IFilters.facets (filters st) |}
       | K_facets => {| IFilters.trial_ids := IFilters.trial_ids (filters st); IFilters.facets := v |}
       end |}.

(** [setFilters({ trial_ids, facets })]. *)
Definition setFilters (t f : option (list string)) (st : State) : State :=
  {| facets := facets st;
     filters := {| IFilters.trial_ids := t; IFilters.facets := f |} |}.

Definition setFacets (c : IFacets.t) (st : State) : State :=
  {| facets := Some c; filters := filters st |}.

(** ** The reconciliation effect (lines 64-88) *)

(** The callback of [filters.facets?.filter(...)]. *)
Definition keepFacet (newFacets : IFacets.t) (facetString : string) : completion bool :=
  let parts := split DELIM_CHAR facetString in
  let cat := default EmptyString (parts !! 0%nat) in
  let facet := parts !! 1%nat in
  let subfacet := parts !! 2%nat in
  let all := facets_of K_facets newFacets in
  if negb (truthy all) then Normal true else
  group ← get all cat;
  if negb (truthy group) then Normal true else
  entry ← get group (property_key facet);
  if negb (truthy entry) then Normal true else
  n ← get entry "count";
  if gt_zero n then Normal true else
  hits ← call_filter entry (fun sf => label_is subfacet sf && (0 <? count sf));
  Normal (0 <? Z.of_nat (length hits)).

(** The effect body, run with the catalogue [useSWR] currently holds.
    When the callback throws, [setFilters] is never reached. *)
Definition reconcile (newFacets : option IFacets.t) (st : State) : completion State :=
  match newFacets with
  | None => Normal st
  | Some c =>
      let st1 := setFacets c st in
      kept ← match IFilters.facets (filters st) with
             | None => Normal None
             | Some fs => fs' ← filterM (keepFacet c) fs; Normal (Some fs')
             end;
      Normal (setFilters (IFilters.trial_ids (filters st)) kept st1)
  end.

(** ** Toggling (lines 107-142) *)

(** [toggleFilter(k, v)]. *)
Definition toggleFilter (k : FacetKey) (v : string) (st : State) : State :=
  let currentValues := default [] (filters_of k (filters st)) in
  let updatedValues :=
    if includes currentValues v
    then List.filter (fun cv => negb (String.eqb cv v)) currentValues
    else currentValues ++ [v] in
  setFilter k (Some updatedValues) st.

(** The argument of [updateFilters(k)]: [string | string[]]. *)
Inductive Selection :=
| Single (v : string)
| Path (v : list string).

(** A destructured path component used as a condition: [undefined] and
    the empty string are falsy. *)
Definition nonempty (s : option string) : bool :=
  match s with
  | Some s => negb (String.eqb s EmptyString)
  | None => false
  end.

(** [updateFilters(k)(v)]. *)
Definition updateFilters (k : FacetKey) (v : Selection) (st : State) : completion State :=
  match facets st with
  | None => Normal st
  | Some catalogue =>
      match v with
      | Path v =>
          let category := v !! 0%nat in
          let facet := v !! 1%nat in
          let subfacet := v !! 2%nat in
          leaf ← (if nonempty subfacet then Normal true
                  else group ← get (facets_of k catalogue) (property_key category);
                       Normal (isArray group));
          if leaf : bool then Normal (toggleFilter k (join ARRAY_PARAM_DELIM v) st)
          else
            let keyFilters := default [] (filters_of k (filters st)) in
            let facetFamily := join_opt ARRAY_PARAM_DELIM [category; facet] in
            group ← get (facets_of k catalogue) (property_key category);
            entry ← get group (property_key facet);
            positive ← call_filter entry (fun f => 0 <? count f);
            let facetsInFamily :=
              map (fun f => join ARRAY_PARAM_DELIM [facetFamily; label f]) positive in
            let hasAllFilters :=
              Nat.eqb (length (List.filter (fun f => startsWith f facetFamily) keyFilters))
                      (length facetsInFamily) in
            let newFilters :=
              if hasAllFilters
              then List.filter (fun f => negb (startsWith f facetFamily)) keyFilters
              else uniq (keyFilters ++ facetsInFamily) in
            Normal (setFilter k (Some newFilters) st)
      | Single v => Normal (toggleFilter k v st)
      end
  end.

(** ** Vocabulary for the statements below *)

(** The three components the callback destructures from a facet string. *)
Definition category_of (facetString : string) : string :=
  default EmptyString (split DELIM_CHAR facetString !! 0%nat).
Definition facet_of (facetString : string) : option string :=
  split DELIM_CHAR facetString !! 1%nat.
Definition subfacet_of (facetString : string) : option string :=
  split DELIM_CHAR facetString !! 2%nat.

(** The entry a facet string refers to in a catalogue:
    [newFacets.facets[cat][facet]] when the guard of the callback holds,
    nothing when the catalogue has no facets, no such category, or no
    such facet in the category. *)
Definition referenced (c : IFacets.t) (facetString : string) : option value :=
  groups ← IFacets.facets c;
  group ← groups !! category_of facetString;
  match get (of_group group) (property_key (facet_of facetString)) with
  | Normal entry => if truthy entry then Some entry else None
  | Throw _ => None
  end.

(** The return expression of the callback, for the entry found. *)
Definition keep_entry (entry : value) (subfacet : option string) : completion bool :=
  n ← get entry "count";
  if gt_zero n then Normal true else
  hits ← call_filter entry (fun sf => label_is subfacet sf && (0 <? count sf));
  Normal (0 <? Z.of_nat (length hits)).

(** The verdict of the callback as a boolean, where it returns. *)
Definition verdict (c : IFacets.t) (s : string) : bool :=
  match keepFacet c s with
  | Normal b => b
  | Throw _ => false
  end.

(** The catalogue lists the facet a facet string names: the category of
    the string is a key of the catalogue's facets and holds a nested
    category, and the facet of the string is a key of that category;
    [l] is the list of sub-facet records found there. *)
Definition listed (c : IFacets.t) (facetString : string) (l : list IFacetInfo) : Prop :=
  exists groups d,
    IFacets.facets c = Some groups /\
    groups !! category_of facetString = Some (Nested d) /\
    d !! property_key (facet_of facetString) = Some l.

(** Some record of the list is labelled like the third component of the
    facet string and has a positive count. *)
Definition positive_subfacet (facetString : string) (l : list IFacetInfo) : Prop :=
  exists sf, In sf l /\ subfacet_of facetString = Some (label sf) /\ 0 < count sf.

(** The entries that are neither a list of sub-facet records nor a record
    with a positive count: on these the callback calls a [filter] method
    that does not exist. *)
Definition unfilterable (c : IFacets.t) (facetString : string) : Prop :=
  match referenced c facetString with
  | Some (VArray _) | None => False
  | Some (VInfo i) => count i <= 0
  | Some _ => True
  end.

(** The argument [updateFilters(k)] receives for a leaf of the catalogue,
    with the filter string that stands for the leaf: a sub-facet of a
    nested category, an entry of a flat category, or a trial id. *)
Inductive leaf (c : IFacets.t) : FacetKey -> Selection -> IFacetInfo -> string -> Prop :=
| leaf_nested groups cat d facet l info :
    IFacets.facets c = Some groups -> groups !! cat = Some (Nested d) ->
    d !! facet = Some l -> In info l -> label info <> EmptyString ->
    leaf c K_facets (Path [cat; facet; label info]) info
         (join ARRAY_PARAM_DELIM [cat; facet; label info])
| leaf_flat groups cat l info :
    IFacets.facets c = Some groups -> groups !! cat = Some (Flat l) -> In info l ->
    leaf c K_facets (Path [cat; label info]) info
         (join ARRAY_PARAM_DELIM [cat; label info])
| leaf_trial info :
    In info (IFacets.trial_ids c) ->
    leaf c K_trial_ids (Single (label info)) info (label info).

(** ** Sample inputs *)

Definition sample_germline : IFacetInfo :=
  {| label := "Germline"; count := 0; description := None |}.

Definition sample_somatic : IFacetInfo :=
  {| label := "Somatic"; count := 3; description := None |}.

Definition sample_participants : IFacetInfo :=
  {| label := "Participants Info"; count := 0; description := None |}.

Definition sample_wes : gmap string (list IFacetInfo) :=
  {[ "WES"%string := [sample_germline; sample_somatic] ]}.

Definition sample_groups : gmap string Group :=
  <[ "Clinical Type"%string := Flat [sample_participants] ]>
    {[ "Assay Type"%string := Nested sample_wes ]}.

Definition sample_catalogue : IFacets.t :=
  {| IFacets.trial_ids := []; IFacets.facets := Some sample_groups |}.

Definition sample_state (selected : option (list string)) : State :=
  {| facets := Some sample_catalogue;
     filters := {| IFilters.trial_ids := Some ["NCI-001"%string];
                   IFilters.facets := selected |} |}.

(** The strings a family toggle computes as [facetsInFamily], and its
    test [f.startsWith(facetFamily)]. *)
Definition facetsInFamily (cat facet : string) (l : list IFacetInfo) : list string :=
  map (fun f => join ARRAY_PARAM_DELIM [join ARRAY_PARAM_DELIM [cat; facet]; label f])
      (List.filter (fun f => 0 <? count f) l).

Definition inFamily (cat facet : string) (f : string) : bool :=
  startsWith f (join ARRAY_PARAM_DELIM [cat; facet]).

(** ** The rest of the provider (lines 90-106) *)

(** [hasFilters]: some query parameter holds a non-empty list. *)
Definition hasFilters (f : IFilters.t) : bool :=
  (0 <? length (List.filter
     (fun fs => match fs with
                | Some l => (0 <? length l)%nat
                | None => false
                end)
     [IFilters.trial_ids f; IFilters.facets f]))%nat.

(** [clearFilters]: every key of [filters] is set to [undefined]. *)
Definition clearFilters (st : State) : State := setFilters None None st.

(** [maybeFilteredFacets]: the trial view is offered the trial ids only. *)
Definition maybeFilteredFacets (trialView : bool) (st : State) : option IFacets.t :=
  match facets st with
  | Some f =>
      if trialView
      then Some {| IFacets.trial_ids := IFacets.trial_ids f; IFacets.facets := Some ∅ |}
      else Some f
  | None => None
  end.

End FilterProvider.

(** * The paginated file table ([FileTable], function component) *)

Module FileTable.

Definition IFilters := FilterProvider.IFilters.t.

(** [fileQueryDefaults.page_size]. *)
Definition page_size : Z := 15.

Definition CANCEL_MESSAGE : string := "cancelling stale filter request".

Inductive Direction := asc | desc.

(** Modelled from the spec: the header descriptor [IHeader] of the generic
    paginated table (key, label, active flag, direction); its declaration
    is not among the sources.  [active] and [direction] are optional, as
    the initial header list leaves them out. *)
Record IHeader := {
  key : string;
  label : string;
  active : option bool;
  direction : option Direction
}.

(** Modelled from the spec: [DataFile] (identifier, object URL, trial id,
    size, format, category, upload timestamp); its declaration is not
    among the sources. *)
Record DataFile := {
  id : Z;
  object_url : string;
  trial_id : string;
  file_size_bytes : Z;
  file_ext : string;
  data_category : string;
  uploaded_timestamp : string
}.

(** [IDataWithMeta<DataFile[]>]: the rows of one page and [meta.total]. *)
Module IDataWithMeta.
Record t := {
  data : list DataFile;
  meta_total : Z
}.
End IDataWithMeta.

(** The parameter object handed to [getFiles]. *)
Module Query.
Record t := {
  page_num : Z;
  trial_ids : option string;
  facets : option string;
  sort_field : option string;
  sort_direction : option Direction;
  page_size : Z
}.
End Query.

(** Modelled from the spec: the HTTP layer behind [getFiles] and the
    cancel token (the API module and the HTTP library are not among the
    sources).  Every request issued so far is kept with its status:
    cancelling the source of an in-flight request marks it cancelled with
    the given message; a request resolves at most once; an in-flight
    request may resolve with a result or a failure, a cancelled one only
    by rejecting with its cancellation message. *)
Inductive Status :=
| InFlight
| Cancelled (message : string)
| Settled.

Record Request := {
  query : Query.t;
  status : Status
}.

Definition with_status (st : Status) (r : Request) : Request :=
  {| query := query r; status := st |}.

(** [source.cancel(message)] for the source of request [n]. *)
Definition cancel (n : nat) (message : string) (h : list Request) : list Request :=
  alter (fun r => match status r with
                  | InFlight => with_status (Cancelled message) r
                  | _ => r
                  end) n h.

Definition settle (n : nat) (h : list Request) : list Request :=
  alter (with_status Settled) n h.

(** ** Component state

    [filters] and [maybeQueryPage] are the URL query parameters; the
    other cells are React state, the [axiosCanceller] ref (the number of
    the request its token source belongs to), the HTTP layer and the
    lines written with [console.error]. *)
Record State := {
  filters : IFilters;
  maybeQueryPage : option Z;
  tablePage : Z;
  prevPage : option Z;
  data : option IDataWithMeta.t;
  selectedFileIds : list Z;
  headers : list IHeader;
  axiosCanceller : option nat;
  http : list Request;
  console : list string
}.

Definition setFilters (f : IFilters) (s : State) : State :=
  {| filters := f; maybeQueryPage := maybeQueryPage s; tablePage := tablePage s;
     prevPage := prevPage s; data := data s; selectedFileIds := selectedFileIds s;
     headers := headers s; axiosCanceller := axiosCanceller s; http := http s;
     console := console s |}.

Definition setQueryPage (p : option Z) (s : State) : State :=
  {| filters := filters s; maybeQueryPage := p; tablePage := tablePage s;
     prevPage := prevPage s; data := data s; selectedFileIds := selectedFileIds s;
     headers := headers s; axiosCanceller := axiosCanceller s; http := http s;
     console := console s |}.

Definition setTablePage (p : Z) (s : State) : State :=
  {| filters := filters s; maybeQueryPage := maybeQueryPage s; tablePage := p;
     prevPage := prevPage s; data := data s; selectedFileIds := selectedFileIds s;
     headers := headers s; axiosCanceller := axiosCanceller s; http := http s;
     console := console s |}.

Definition setPrevPage (p : option Z) (s : State) : State :=
  {| filters := filters s; maybeQueryPage := maybeQueryPage s; tablePage := tablePage s;
     prevPage := p; data := data s; selectedFileIds := selectedFileIds s;
     headers := headers s; axiosCanceller := axiosCanceller s; http := http s;
     console := console s |}.

Definition setData (d : option IDataWithMeta.t) (s : State) : State :=
  {| filters := filters s; maybeQueryPage := maybeQueryPage s; tablePage := tablePage s;
     prevPage := prevPage s; data := d; selectedFileIds := selectedFileIds s;
     headers := headers s; axiosCanceller := axiosCanceller s; http := http s;
     console := console s |}.

Definition setSelectedFileIds (ids : list Z) (s : State) : State :=
  {| filters := filters s; maybeQueryPage := maybeQueryPage s; tablePage := tablePage s;
     prevPage := prevPage s; data := data s; selectedFileIds := ids;
     headers := headers s; axiosCanceller := axiosCanceller s; http := http s;
     console := console s |}.

Definition setHeaders (hs : list IHeader) (s : State) : State :=
  {| filters := filters s; maybeQueryPage := maybeQueryPage s; tablePage := tablePage s;
     prevPage := prevPage s; data := data s; selectedFileIds := selectedFileIds s;
     headers := hs; axiosCanceller := axiosCanceller s; http := http s;
     console := console s |}.

Definition setCanceller (c : option nat) (h : list Request) (s : State) : State :=
  {| filters := filters s; maybeQueryPage := maybeQueryPage s; tablePage := tablePage s;
     prevPage := prevPage s; data := data s; selectedFileIds := selectedFileIds s;
     headers := headers s; axiosCanceller := c; http := h;
     console := console s |}.

Definition setHttp (h : list Request) (s : State) : State :=
  setCanceller (axiosCanceller s) h s.

Definition console_error (line : string) (s : State) : State :=
  {| filters := filters s; maybeQueryPage := maybeQueryPage s; tablePage := tablePage s;
     prevPage := prevPage s; data := data s; selectedFileIds := selectedFileIds s;
     headers := headers s; axiosCanceller := axiosCanceller s; http := http s;
     console := console s ++ [line] |}.

(** [const queryPage = maybeQueryPage || 0]. *)
Definition queryPage (s : State) : Z := default 0 (maybeQueryPage s).

(** The initial value of the [headers] state. *)
Definition initialHeaders : list IHeader :=
  [ {| key := "object_url"; label := "File Name"; active := None; direction := None |};
    {| key := "trial_id"; label := "Protocol ID"; active := None; direction := None |};
    {| key := "file_ext"; label := "Format"; active := None; direction := None |};
    {| key := "data_category"; label := "Category"; active := None; direction := None |};
    {| key := "file_size_bytes"; label := "Size"; active := None; direction := None |};
    {| key := "uploaded_timestamp"; label := "Date/Time Uploaded";
       active := Some true; direction := Some desc |} ].

(** The component as first rendered for a URL carrying [f] and [p]. *)
Definition initial (f : IFilters) (p : option Z) : State :=
  {| filters := f; maybeQueryPage := p; tablePage := 0; prevPage := None;
     data := None; selectedFileIds := []; headers := initialHeaders;
     axiosCanceller := None; http := []; console := [] |}.

(** [h.active] used as a condition. *)
Definition is_active (h : IHeader) : bool :=
  match active h with Some true => true | _ => false end.

(** [const sortHeader = headers.find(h => h.active)]. *)
Definition sortHeader (s : State) : option IHeader := List.find is_active (headers s).

(** [filterParams]: each list of filters joined with commas. *)
Definition filterParams (f : IFilters) : option string * option string :=
  (join "," <$> FilterProvider.IFilters.trial_ids f,
   join "," <$> FilterProvider.IFilters.facets f).

(** [sortParams]: nothing for no header, else its key and direction. *)
Definition sortParams (header : option IHeader) : option (string * option Direction) :=
  (fun h => (key h, direction h)) <$> header.

(** The object literal handed to [getFiles]: the page, then the spreads
    of [filterParams], [sortParams] and [fileQueryDefaults] (spreading
    [undefined] adds nothing). *)
Definition build_query (page : Z) (f : IFilters) (header : option IHeader) : Query.t :=
  {| Query.page_num := page;
     Query.trial_ids := fst (filterParams f);
     Query.facets := snd (filterParams f);
     Query.sort_field := fst <$> sortParams header;
     Query.sort_direction := sortParams header ≫= snd;
     Query.page_size := page_size |}.

(** ** The fetch effect (lines 208-268), up to the point where the
    request has been handed to the HTTP layer. *)
Definition effect (s : State) : State :=
  let queryPage := queryPage s in
  let s' :=
    if bool_decide (Some queryPage = prevPage s) && negb (bool_decide (prevPage s = Some 0))
    then setQueryPage (Some 0) s
    else if queryPage <? 0
    then setQueryPage (Some 0) s
    else
      let s1 := setData None s in
      let h1 := match axiosCanceller s1 with
                | Some n => cancel n CANCEL_MESSAGE (http s1)
                | None => http s1
                end in
      let request := {| query := build_query queryPage (filters s) (sortHeader s);
                        status := InFlight |} in
      setCanceller (Some (length h1)) (h1 ++ [request]) s1
  in
  setPrevPage (Some queryPage) s'.

(** The [.then] callback of the request issued for page [queryPage]. *)
Definition onFulfilled (queryPage : Z) (files : IDataWithMeta.t) (s : State) : State :=
  if queryPage * page_size >? IDataWithMeta.meta_total files
  then setQueryPage (Some 0) s
  else setData (Some files) (setTablePage queryPage s).

(** The [.catch] callback. *)
Definition onRejected (message : string) (s : State) : State :=
  if negb (String.eqb message CANCEL_MESSAGE) then console_error message s else s.

(** ** Row and header clicks (lines 340-367) *)

(** [const newSelectedFileIds = selectedFileIds.includes(file.id) ? ... : ...]. *)
Definition newSelectedFileIds (file : DataFile) (selectedFileIds : list Z) : list Z :=
  if existsb (Z.eqb (id file)) selectedFileIds
  then List.filter (fun i => negb (i =? id file)) selectedFileIds
  else selectedFileIds ++ [id file].

Definition onClickRow (file : DataFile) (s : State) : State :=
  setSelectedFileIds (newSelectedFileIds file (selectedFileIds s)) s.

(** The callback of [headers.map] in [onClickHeader]. *)
Definition clickHeader (header : IHeader) (h : IHeader) : IHeader :=
  if String.eqb (key h) (key header) then
    if is_active h then
      {| key := key h; label := label h; active := active h;
         direction := Some (match direction h with Some desc => asc | _ => desc end) |}
    else
      {| key := key h; label := label h; active := Some true; direction := Some desc |}
  else
    {| key := key h; label := label h; active := Some false; direction := direction h |}.

(** [const newHeaders = headers.map(h => ...)]. *)
Definition newHeaders (header : IHeader) (headers : list IHeader) : list IHeader :=
  map (clickHeader header) headers.

Definition onClickHeader (header : IHeader) (s : State) : State :=
  setHeaders (newHeaders header (headers s)) s.

(** [clearIds]. *)
Definition clearIds (s : State) : State := setSelectedFileIds [] s.

(** ** The component as a transition system

    The effect may run at any moment (its dependencies include the token,
    which the model does not track); a request resolves or fails when the
    HTTP layer allows it. *)
Inductive Event :=
| RunEffect
| Resolve (n : nat) (files : IDataWithMeta.t)
| Fail (n : nat) (message : string)
| Navigate (f : IFilters) (p : option Z)
| ChangePage (p : Z)
| ClickRow (file : DataFile)
| ClickHeader (header : IHeader)
| ClearSelection.

Definition step (s : State) (e : Event) : option State :=
  match e with
  | RunEffect => Some (effect s)
  | Resolve n files =>
      r ← http s !! n;
      match status r with
      | InFlight =>
          Some (onFulfilled (Query.page_num (query r)) files (setHttp (settle n (http s)) s))
      | _ => None
      end
  | Fail n message =>
      r ← http s !! n;
      match status r with
      | InFlight => Some (onRejected message (setHttp (settle n (http s)) s))
      | Cancelled m =>
          if String.eqb message m
          then Some (onRejected message (setHttp (settle n (http s)) s))
          else None
      | Settled => None
      end
  | Navigate f p => Some (setQueryPage p (setFilters f s))
  | ChangePage p => Some (setQueryPage (Some p) s)
  | ClickRow file => Some (onClickRow file s)
  | ClickHeader header => Some (onClickHeader header s)
  | ClearSelection => Some (clearIds s)
  end.

Inductive reachable : State -> Prop :=
| reachable_initial f p : reachable (initial f p)
| reachable_step s e s' : reachable s -> step s e = Some s' -> reachable s'.

(** React re-runs the effect when one of its dependencies changed; the
    only dependency the effect itself writes is the query page. *)
Definition run_effects (s : State) : State :=
  let s1 := effect s in
  if queryPage s1 =? queryPage s then s1 else effect s1.

(** ** Vocabulary for the statements below *)

(** The first test of the effect: the query page equals the recorded
    previous page, which is not 0. *)
Definition stale_echo (s : State) : Prop :=
  prevPage s = Some (queryPage s) /\ queryPage s <> 0.

(** The request the third branch of the effect hands to [getFiles]. *)
Definition issued_request (s : State) : Request :=
  {| query := build_query (queryPage s) (filters s) (sortHeader s); status := InFlight |}.

(** The HTTP layer after the third branch has cancelled the current
    token source. *)
Definition cancel_current (s : State) : list Request :=
  match axiosCanceller s with
  | Some n => cancel n CANCEL_MESSAGE (http s)
  | None => http s
  end.

(** Invariants of the reachable states: an in-flight request is the one
    the ref points at; the ref points at the request issued last; a
    cancelled request carries the sentinel; no request asks for a
    negative page. *)
Definition live_is_current (s : State) : Prop :=
  forall n r, http s !! n = Some r -> status r = InFlight -> axiosCanceller s = Some n.

Definition current_is_last (s : State) : Prop :=
  forall n, axiosCanceller s = Some n -> S n = length (http s).

Definition cancelled_by_sentinel (s : State) : Prop :=
  forall n r m, http s !! n = Some r -> status r = Cancelled m -> m = CANCEL_MESSAGE.

Definition pages_nonnegative (s : State) : Prop :=
  Forall (fun r => 0 <= Query.page_num (query r)) (http s).

Definition invariant (s : State) : Prop :=
  live_is_current s /\ current_is_last s /\ cancelled_by_sentinel s /\ pages_nonnegative s.

(** The header lists the component can hold: the initial one, and the
    result of a click on one of the headers currently rendered. *)
Inductive clicked : list IHeader -> Prop :=
| clicked_initial : clicked initialHeaders
| clicked_click hs header :
    clicked hs -> In header hs -> clicked (newHeaders header hs).

(** The states the component reaches when every header click is a click
    on one of the headers currently rendered. *)
Inductive rendered_clicks : State -> Prop :=
| rendered_clicks_initial f p : rendered_clicks (initial f p)
| rendered_clicks_click s header :
    rendered_clicks s -> In header (headers s) ->
    rendered_clicks (onClickHeader header s)
| rendered_clicks_step s e s' :
    rendered_clicks s -> (forall header, e <> ClickHeader header) ->
    step s e = Some s' -> rendered_clicks s'.

(** The events of a trace, in order; nothing when one of them cannot
    happen. *)
Fixpoint run (s : State) (events : list Event) : option State :=
  match events with
  | [] => Some s
  | e :: rest => s' ← step s e; run s' rest
  end.

(** The selections built from the empty one by row clicks only. *)
Inductive toggled : list Z -> Prop :=
| toggled_empty : toggled []
| toggled_click ids file : toggled ids -> toggled (newSelectedFileIds file ids).

(** The direction a click gives the header that was already active. *)
Definition flipped (d : option Direction) : Direction :=
  match d with Some desc => asc | _ => desc end.

(** ** Sample inputs *)

Definition sample_filters : IFilters :=
  {| FilterProvider.IFilters.trial_ids := Some ["NCI-001"%string];
     FilterProvider.IFilters.facets := None |}.

Definition sample_other_filters : IFilters :=
  {| FilterProvider.IFilters.trial_ids := Some ["NCI-002"%string];
     FilterProvider.IFilters.facets := None |}.

(** Page 2 has been requested and the request is in flight. *)
Definition sample_page2 : State := effect (initial sample_filters (Some 2)).

(** Page 1 was then chosen while that request was still in flight. *)
Definition sample_superseded : State := effect (setQueryPage (Some 1) sample_page2).

Definition sample_ten_results : IDataWithMeta.t :=
  {| IDataWithMeta.data := []; IDataWithMeta.meta_total := 10 |}.

Definition sample_negative : State := initial sample_filters (Some (-3)).

Definition sample_file : DataFile :=
  {| id := 7; object_url := "trial/wes/sample.bam"; trial_id := "NCI-001";
     file_size_bytes := 1024; file_ext := "bam"; data_category := "WES";
     uploaded_timestamp := "2020-01-01T00:00:00" |}.

(** A third page of 100 results, with a row of trial NCI-001. *)
Definition sample_old_rows : IDataWithMeta.t :=
  {| IDataWithMeta.data := [sample_file]; IDataWithMeta.meta_total := 100 |}.

(** The answer to a request for a page that starts exactly at the total. *)
Definition sample_thirty_results : IDataWithMeta.t :=
  {| IDataWithMeta.data := []; IDataWithMeta.meta_total := 30 |}.

Definition sample_trial_header : IHeader :=
  {| key := "trial_id"; label := "Protocol ID"; active := None; direction := None |}.

(** ** The batch download button and the file-name cell *)

(** What [BatchDownloadButton] renders for a selection (lines 77-109):
    whether the button is disabled, its caption, and whether the
    "Clear Selection" button is offered. *)
Record ButtonView := {
  disabled : bool;
  caption : string;
  offersClear : bool
}.

(** [const filePluralized = `file${ids.length > 1 ? "s" : ""}`]. *)
Definition filePluralized (ids : list Z) : string :=
  "file" +:+ (if (1 <? length ids)%nat then "s" else "").

Definition batchDownloadButton (ids : list Z) : ButtonView :=
  {| disabled := Nat.eqb (length ids) 0;
     caption :=
       if (0 <? length ids)%nat
       then "Download " +:+ pretty (length ids) +:+ " " +:+ filePluralized ids
       else "No files selected";
     offersClear := (0 <? length ids)%nat |}.

(** [formatObjectURL] (lines 270-282): the target of the link and the two
    lines shown, the prefix followed by a slash and the file name. *)
Record FileNameCell := {
  to : string;
  prefixLine : string;
  fileNameLine : string
}.

Definition formatObjectURL (row : DataFile) : FileNameCell :=
  let paths := split "/" (object_url row) in
  (* [paths[paths.length - 1]]; [split] never yields an empty array *)
  let fileName := default EmptyString (paths !! (length paths - 1)%nat) in
  (* [paths.slice(0, paths.length - 1).join("/")] *)
  let prefix := join "/" (take (length paths - 1) paths) in
  {| to := "/browse-files/" +:+ pretty (id row);
     prefixLine := prefix +:+ "/";
     fileNameLine := fileName |}.

(** The character occurs in the string. *)
Definition occurs (c : ascii) (s : string) : Prop := In c (list_ascii_of_string s).

(** The displayed page lies within the results it was fetched with. *)
Definition page_in_range (s : State) : Prop :=
  0 <= tablePage s /\
  forall files, data s = Some files ->
    tablePage s * page_size <= IDataWithMeta.meta_total files.

End FileTable.

(** * [usePaginatedTrials] of TrialTable.tsx (lines 316-361) *)

Module TrialTable.

Definition TRIALS_PER_PAGE : Z := 10.

(** What the hook holds: the trial-id filters it reads from the filter
    context and the number of pages [useSWRInfinite] has been asked for. *)
Record State := {
  trial_ids : option (list string);
  size : Z
}.

(** [setSize]. *)
Definition setSize (f : Z -> Z) (s : State) : State :=
  {| trial_ids := trial_ids s; size := f (size s) |}.

(** [loadMore]. *)
Definition loadMore (s : State) : State := setSize (fun size => size + 1) s.

(** The effect "Clear all results when filters change". *)
Definition filtersEffect (s : State) : State := setSize (fun _ => 1) s.

(** A change of the trial-id filters: [filters.trial_ids] is a dependency
    of the effect, so React runs it after the change. *)
Definition changeTrialIds (ids : option (list string)) (s : State) : State :=
  filtersEffect {| trial_ids := ids; size := size s |}.

(** ** Loading pages of trials (lines 316-348) *)

(** The key [getTrialURL] builds: the parameters of the query string and
    the token. *)
Record TrialKey := {
  include_file_bundles : bool;
  page_size : Z;
  page_num : Z;
  key_trial_ids : option string;
  token : string
}.

Section Pages.

(** A trial, and a page of the API ([IApiPage<Trial>]) as its [_items]. *)
Context {Trial : Type}.

(** [getTrialURL]: no key once the previous page came back empty. *)
Definition getTrialURL (tok : string) (filters_trial_ids : option (list string))
    (pageIndex : nat) (previousPageData : option (list Trial)) : option TrialKey :=
  match previousPageData with
  | Some [] => None
  | _ =>
      Some {| include_file_bundles := true;
              page_size := TRIALS_PER_PAGE;
              page_num := Z.of_nat pageIndex;
              key_trial_ids := join "," <$> filters_trial_ids;
              token := tok |}
  end.

(** The pages [useSWRInfinite] holds once [count] pages have been asked
    for, starting at page [index]: each key is computed from the page
    before, and the first missing key ends the loading. *)
Fixpoint loadPages (apiFetch : TrialKey -> list Trial)
    (getKey : nat -> option (list Trial) -> option TrialKey)
    (count index : nat) (previousPageData : option (list Trial)) : list (list Trial) :=
  match count with
  | O => []
  | S count' =>
      match getKey index previousPageData with
      | None => []
      | Some key =>
          let pageData := apiFetch key in
          pageData :: loadPages apiFetch getKey count' (S index) (Some pageData)
      end
  end.

(** [data] of the hook after loading. *)
Definition loadedData (apiFetch : TrialKey -> list Trial) (tok : string) (s : State)
  : list (list Trial) :=
  loadPages apiFetch (getTrialURL tok (trial_ids s)) (Z.to_nat (size s)) 0 None.

(** [const trials = data?.flatMap(page => page._items)]. *)
Definition trials (data : list (list Trial)) : list Trial := concat data.

(** [allLoaded]. *)
Definition allLoaded (data : list (list Trial)) : bool :=
  Nat.eqb (length (trials data)) 0 ||
  negb (Z.of_nat (length (trials data)) mod TRIALS_PER_PAGE =? 0).

(** An API that answers the queries for the trial ids [ids] with the list
    [all], page by page. *)
Definition serves (ids : option (list string)) (all : list Trial)
    (apiFetch : TrialKey -> list Trial) : Prop :=
  forall key,
    key_trial_ids key = join "," <$> ids ->
    apiFetch key =
    take (Z.to_nat (page_size key)) (drop (Z.to_nat (page_num key * page_size key)) all).

End Pages.

(** ** The file bundle of a trial card (lines 93-115 and 196-226) *)

(** Modelled from the spec: the file bundle of a trial, grouped by assay
    and clinical/sample category (its declaration is not among the
    sources).  A bundle holds the file ids of one assay or category by
    purpose ("source", "analysis", ...); a purpose may hold no list. *)
Definition Bundle := list (string * option (list Z)).

(** [IFileBundle]: the bundles of a trial by assay or clinical category,
    in the order of the object's keys. *)
Definition IFileBundle := list (string * Bundle).

(** [isClinical], on the key. *)
Definition isClinical (key : string) : bool :=
  includes ["Participants Info"; "Samples Info"]%string key.

(** [pickBy(fileBundle, isClinical)]. *)
Definition clinicalBundle (fileBundle : IFileBundle) : IFileBundle :=
  List.filter (fun kv => isClinical (fst kv)) fileBundle.

(** [omitBy(fileBundle, (v, k) => isClinical(v, k) || k === "other")]. *)
Definition assayBundle (fileBundle : IFileBundle) : IFileBundle :=
  List.filter (fun kv => negb (isClinical (fst kv) || String.eqb (fst kv) "other")) fileBundle.

(** Whether [TrialCard] returns [null]. *)
Definition rendersNothing (fileBundle : IFileBundle) : bool :=
  Nat.eqb (length (assayBundle fileBundle)) 0 &&
  Nat.eqb (length (clinicalBundle fileBundle)) 0.

(** [clinicalIds]. *)
Definition clinicalIds (fileBundle : IFileBundle) : list Z :=
  flat_map (fun kv => flat_map (fun pv => default [] (snd pv)) (snd kv))
           (clinicalBundle fileBundle).

(** [AssayButton]: [const ids = bundle[purpose] || []]; the first entry
    under the purpose is the property read. *)
Definition purposeIds (bundle : Bundle) (purpose : string) : list Z :=
  match List.find (fun pv => String.eqb (fst pv) purpose) bundle with
  | Some (_, Some ids) => ids
  | _ => []
  end.

(** [BatchDownloadButton] of the trial card: [!ids.length || disabled]. *)
Definition downloadDisabled (ids : list Z) (disabled : bool) : bool :=
  Nat.eqb (length ids) 0 || disabled.

(** A row of [AssayButtonTable]: the assay, and the ids behind its two
    buttons. *)
Record AssayRow := {
  assay : string;
  sourceIds : list Z;
  analysisIds : list Z
}.

(** The rows [AssayButtonTable] maps the entries to; [None] is the [null]
    returned for the key "other". *)
Definition assayRows (bundles : IFileBundle) : list (option AssayRow) :=
  map (fun kv =>
         if String.eqb (fst kv) "other" then None
         else Some {| assay := fst kv;
                      sourceIds := purposeIds (snd kv) "source";
                      analysisIds := purposeIds (snd kv) "analysis" |})
      bundles.

(** ** Sample inputs *)

Definition sample_twenty (key : TrialKey) : list Z :=
  take (Z.to_nat (page_size key)) (drop (Z.to_nat (page_num key * page_size key)) (seqZ 0 20)).

Definition sample_bundle : IFileBundle :=
  [ ("Participants Info"%string, [("source"%string, Some [1; 2])]);
    ("WES"%string, [("source"%string, Some [3]); ("analysis"%string, None)]);
    ("other"%string, [("source"%string, Some [4])]) ].

End TrialTable.

(** * The legacy class-based [FileTable] *)

Module LegacyFileTable.

Inductive SortDirection := asc | desc.

Definition NAME_KEY : string := "file_name".

(** [IFileTableState]. *)
Record IFileTableState := {
  rowsPerPage : Z;
  page : Z;
  sortBy : string;
  sortDirection : SortDirection
}.

Definition initialState : IFileTableState :=
  {| page := 0; rowsPerPage := 10; sortBy := NAME_KEY; sortDirection := asc |}.

Definition handleChangePage (p : Z) (st : IFileTableState) : IFileTableState :=
  {| page := p; rowsPerPage := rowsPerPage st; sortBy := sortBy st;
     sortDirection := sortDirection st |}.

Definition handleChangeRowsPerPage (r : Z) (st : IFileTableState) : IFileTableState :=
  {| page := page st; rowsPerPage := r; sortBy := sortBy st;
     sortDirection := sortDirection st |}.

Definition handleChangeSorting (by_ : string) (st : IFileTableState) : IFileTableState :=
  let isAsc := String.eqb (sortBy st) by_ &&
               match sortDirection st with asc => true | desc => false end in
  {| page := page st; rowsPerPage := rowsPerPage st; sortBy := by_;
     sortDirection := if isAsc then desc else asc |}.

(** [xs.slice(start, end)]: a negative bound counts from the end, both
    bounds are clamped to the array, and an empty range yields []. *)
Definition slice {A} (xs : list A) (start end_ : Z) : list A :=
  let len := Z.of_nat (length xs) in
  let from := if start <? 0 then Z.max (len + start) 0 else Z.min start len in
  let to := if end_ <? 0 then Z.max (len + end_) 0 else Z.min end_ len in
  take (Z.to_nat (to - from)) (drop (Z.to_nat from) xs).

Section Rows.

(** The row type [File] (its declaration is not among the sources) and
    lodash's ascending comparison of two rows under the property named by
    the sort key. *)
Context {File : Type}.
Variable compareAscending : string -> File -> File -> comparison.

(** The comparison is a genuine order when swapping its arguments
    reverses its verdict. *)
Definition antisymmetric : Prop :=
  forall by_ a b, compareAscending by_ b a = CompOpp (compareAscending by_ a b).

(** Whether [a] may stand before [b] in the requested order. *)
Definition inOrder (by_ : string) (dir : SortDirection) (a b : File) : bool :=
  match dir, compareAscending by_ a b with
  | asc, Gt => false
  | desc, Lt => false
  | _, _ => true
  end.

Fixpoint insertRow (by_ : string) (dir : SortDirection) (x : File) (sorted : list File)
  : list File :=
  match sorted with
  | [] => [x]
  | y :: rest =>
      if inOrder by_ dir x y then x :: y :: rest
      else y :: insertRow by_ dir x rest
  end.

(** [_.orderBy(files, sortBy, sortDirection)]: lodash sorts stably (rows
    that compare equal keep their input order, in either direction). *)
Fixpoint orderBy (files : list File) (by_ : string) (dir : SortDirection) : list File :=
  match files with
  | [] => []
  | x :: rest => insertRow by_ dir x (orderBy rest by_ dir)
  end.

(** What [render] shows: the body rows and the properties handed to the
    pagination control. *)
Record View := {
  rows : list File;
  count : Z;
  shownRowsPerPage : Z;
  shownPage : Z
}.

Definition render (files : list File) (st : IFileTableState) : View :=
  {| rows := slice (orderBy files (sortBy st) (sortDirection st))
                   (page st * rowsPerPage st)
                   (page st * rowsPerPage st + rowsPerPage st);
     count := Z.of_nat (length files);
     shownRowsPerPage := rowsPerPage st;
     shownPage := page st |}.

End Rows.

(** ** Sample inputs: rows that are their own size *)

Definition sample_compare (by_ : string) (a b : Z) : comparison := Z.compare a b.

Definition sample_rows : list Z := [30; 10; 50; 20; 40].

Definition sample_second_page : IFileTableState :=
  {| page := 1; rowsPerPage := 2; sortBy := "file_size"; sortDirection := asc |}.

End LegacyFileTable.

(** * api/utilities.ts *)

Module Utilities.

(** [IAPIHelperOptions]. *)
Record IAPIHelperOptions := {
  endpoint : string;
  etag : option string;
  itemID : option string;
  token : option string;
  parameters : option (gmap string string);
  body : option (gmap string string)
}.

(** The options object handed to [makeRequest]. *)
Module Options.
Record t := {
  body : option (gmap string string);
  headers : gmap string string;
  json : bool;
  method : string;
  qs : option (gmap string string);
  uri : string
}.
End Options.

(** [`${x}`] for an optional string: [undefined] prints as "undefined". *)
Definition template (x : option string) : string := default "undefined"%string x.

(** [generateOptions]. *)
Definition generateOptions (opts : IAPIHelperOptions) (method baseURL : string) : Options.t :=
  {| Options.body := body opts;
     Options.headers := {[ "Authorization"%string := "Bearer " +:+ template (token opts) ]};
     Options.json := true;
     Options.method := method;
     Options.qs := parameters opts;
     Options.uri :=
       baseURL +:+ "/" +:+ endpoint opts +:+
       (if FilterProvider.nonempty (itemID opts) then "/" +:+ template (itemID opts) else "") |}.

Definition setHeader (name value : string) (o : Options.t) : Options.t :=
  {| Options.body := Options.body o;
     Options.headers := <[ name := value ]> (Options.headers o);
     Options.json := Options.json o;
     Options.method := Options.method o;
     Options.qs := Options.qs o;
     Options.uri := Options.uri o |}.

(** [IAPIHelper], each method as the options it hands to [makeRequest]. *)
Record IAPIHelper := {
  baseURL : string;
  delete : IAPIHelperOptions -> Options.t;
  get : IAPIHelperOptions -> Options.t;
  patch : IAPIHelperOptions -> Options.t;
  post : IAPIHelperOptions -> Options.t
}.

(** [createAPIHelper]. *)
Definition createAPIHelper (baseURL : string) : IAPIHelper :=
  {| baseURL := baseURL;
     delete := fun opts => generateOptions opts "DELETE" baseURL;
     get := fun opts => generateOptions opts "GET" baseURL;
     patch := fun opts =>
       let optid := generateOptions opts "POST" baseURL in
       let optid := setHeader "X-HTTP-METHOD-OVERRIDE" "PATCH" optid in
       if FilterProvider.nonempty (etag opts)
       then setHeader "If-Match" (template (etag opts)) optid
       else optid;
     post := fun opts => generateOptions opts "POST" baseURL |}.

Definition sample_options : IAPIHelperOptions :=
  {| endpoint := "trials"; etag := Some "abc"%string; itemID := Some "17"%string;
     token := Some "tok"%string; parameters := None; body := None |}.

End Utilities.

(** * Properties of the filter provider *)

Module FilterProviderSpec.
Import FilterProvider.

(** ** The callback of the reconciliation *)

Lemma keepFacet_referenced c s :
  keepFacet c s =
  match referenced c s with
  | None => Normal true
  | Some entry => keep_entry entry (subfacet_of s)
  end.
Proof.
  unfold keepFacet, referenced, keep_entry, facets_of, category_of, facet_of, subfacet_of.
  destruct (IFacets.facets c) as [groups|]; simpl; [|reflexivity].
  destruct (groups !! _) as [group|]; simpl; [|reflexivity].
  assert (Htruthy : truthy (of_group group) = true) by (destruct group; reflexivity).
  rewrite Htruthy. simpl.
  assert (Hget : exists e, get (of_group group)
                   (property_key (split DELIM_CHAR s !! 1%nat)) = Normal e).
  { destruct group; simpl; [eauto|]. destruct (String.eqb _ _); eauto. }
  destruct Hget as [e He]. rewrite He. simpl.
  destruct (truthy e); reflexivity.
Qed.

(** The entries a facet string can refer to. *)
Lemma referenced_kinds c s entry :
  referenced c s = Some entry ->
  (exists l, entry = VArray l) \/ (exists i, entry = VInfo i) \/
  (exists n, entry = VNumber n /\ n <> 0).
Proof.
  unfold referenced.
  destruct (IFacets.facets c) as [groups|]; simpl; [|discriminate].
  destruct (groups !! _) as [group|]; simpl; [|discriminate].
  destruct group as [d|l]; simpl.
  - destruct (d !! _) as [l|]; simpl; [|discriminate].
    intros H. inversion H. eauto.
  - destruct (String.eqb _ _); simpl.
    + destruct (Z.eqb_spec (Z.of_nat (length l)) 0) as [|Hne]; simpl; [discriminate|].
      intros H. inversion H. right. right. eauto.
    + destruct (array_index _ ≫= _) as [i|]; simpl; [|discriminate].
      intros H. inversion H. eauto.
Qed.

Lemma keep_entry_array l subfacet :
  keep_entry (VArray l) subfacet =
  Normal (existsb (fun sf => label_is subfacet sf && (0 <? count sf)) l).
Proof.
  unfold keep_entry. simpl. f_equal.
  induction l as [|sf l IH]; [reflexivity|]. simpl.
  destruct (label_is subfacet sf && (0 <? count sf)); simpl; [|exact IH].
  destruct (length _); reflexivity.
Qed.

Lemma keep_entry_info i subfacet :
  keep_entry (VInfo i) subfacet = if 0 <? count i then Normal true else Throw TypeError.
Proof. unfold keep_entry. simpl. destruct (0 <? count i); reflexivity. Qed.

Lemma keep_entry_number n subfacet : keep_entry (VNumber n) subfacet = Throw TypeError.
Proof. reflexivity. Qed.

Lemma label_is_spec subfacet sf : label_is subfacet sf = true <-> subfacet = Some (label sf).
Proof.
  destruct subfacet as [x|]; simpl; [|split; discriminate].
  rewrite String.eqb_eq. split; congruence.
Qed.

(** On a facet the catalogue lists, the callback searches the sub-facet
    records of the facet. *)
Lemma keepFacet_listed c s l :
  listed c s l ->
  keepFacet c s =
    Normal (existsb (fun sf => label_is (subfacet_of s) sf && (0 <? count sf)) l).
Proof.
  intros (groups & d & Hfacets & Hcat & Hfacet).
  rewrite keepFacet_referenced. unfold referenced. rewrite Hfacets. simpl.
  rewrite Hcat. simpl. rewrite Hfacet. simpl. apply keep_entry_array.
Qed.

Lemma listed_functional c s l l' : listed c s l -> listed c s l' -> l = l'.
Proof.
  intros (g & d & Hf & Hc & Hl) (g' & d' & Hf' & Hc' & Hl'). congruence.
Qed.

Lemma existsb_positive_subfacet s l :
  existsb (fun sf => label_is (subfacet_of s) sf && (0 <? count sf)) l = true
  <-> positive_subfacet s l.
Proof.
  rewrite existsb_exists. unfold positive_subfacet. split.
  - intros (sf & Hin & H). apply andb_true_iff in H as [Hl Hc].
    apply label_is_spec in Hl. apply Z.ltb_lt in Hc. eauto.
  - intros (sf & Hin & Hl & Hc). exists sf. split; [assumption|].
    apply andb_true_iff. split; [apply label_is_spec; assumption|apply Z.ltb_lt; assumption].
Qed.

Lemma verdict_listed c s l : listed c s l -> (verdict c s = true <-> positive_subfacet s l).
Proof.
  intros H. unfold verdict. rewrite (keepFacet_listed c s l H).
  apply existsb_positive_subfacet.
Qed.

(** On the other entries it throws. *)
Lemma keepFacet_unfilterable c s : unfilterable c s -> keepFacet c s = Throw TypeError.
Proof.
  intros Hbad. rewrite keepFacet_referenced. unfold unfilterable in Hbad.
  destruct (referenced c s) as [entry|] eqn:E; [|contradiction].
  destruct (referenced_kinds c s entry E) as [[l ->]|[[i ->]|[n [-> Hn]]]].
  - contradiction.
  - rewrite keep_entry_info. destruct (Z.ltb_spec 0 (count i)); [lia|reflexivity].
  - reflexivity.
Qed.

Lemma filterM_normal {A} (f : A -> completion bool) (g : A -> bool) (l : list A) :
  (forall x, In x l -> f x = Normal (g x)) -> filterM f l = Normal (List.filter g l).
Proof.
  induction l as [|x l IH]; simpl; intros H; [reflexivity|].
  rewrite (H x) by (left; reflexivity). simpl.
  rewrite IH by (intros y Hy; apply H; right; assumption). reflexivity.
Qed.

Lemma filterM_throw {A} (f : A -> completion bool) (l : list A) x :
  In x l -> f x = Throw TypeError -> filterM f l = Throw TypeError.
Proof.
  induction l as [|y l IH]; simpl; [contradiction|].
  intros [->|Hin] Hx.
  - rewrite Hx. reflexivity.
  - destruct (f y) as [b|[]]; simpl; [|reflexivity].
    rewrite (IH Hin Hx). reflexivity.
Qed.

(** ** Reconciliation on a catalogue refresh *)

(** C1, at the input where the code departs from it.  The catalogue lists
    the flat category "Clinical Type" with one record of count 0, and the
    selection "Clinical Type|0|Participants Info" refers to that record by
    its position.  The entry reports no positive count, so the selection
    is to be dropped; the callback instead calls [filter] on the record
    and the effect ends in a [TypeError] before [setFilters] is reached. *)
Theorem flat_index_selection_raises :
  referenced sample_catalogue "Clinical Type|0|Participants Info" = Some (VInfo sample_participants) /\
  count sample_participants = 0 /\
  reconcile (Some sample_catalogue)
    (sample_state (Some ["Clinical Type|0|Participants Info"%string])) = Throw TypeError.
Proof. vm_compute. repeat split. Qed.

(** X1.  Where every selected facet string names a facet the new
    catalogue lists (its category is a nested category of the catalogue
    and its facet is a key of that category), the effect completes: the
    catalogue is stored, the trial-id filters are written back unchanged,
    and the selected facet strings are filtered in place, a string being
    kept exactly when one of the sub-facet records listed for its facet is
    labelled like its third component and has a positive count. *)
Theorem reconcile_retains c st fs :
  IFilters.facets (filters st) = Some fs ->
  (forall s, In s fs -> exists l, listed c s l) ->
  exists st' kept,
    reconcile (Some c) st = Normal st' /\
    facets st' = Some c /\
    IFilters.trial_ids (filters st') = IFilters.trial_ids (filters st) /\
    IFilters.facets (filters st') = Some kept /\
    kept = List.filter (verdict c) fs /\
    (forall s l, In s fs -> listed c s l -> (verdict c s = true <-> positive_subfacet s l)) /\
    (forall s, In s kept <-> In s fs /\ exists l, listed c s l /\ positive_subfacet s l).
Proof.
  intros Hfs Hlisted. unfold reconcile. rewrite Hfs.
  assert (Hrun : filterM (keepFacet c) fs = Normal (List.filter (verdict c) fs)).
  { apply filterM_normal. intros s Hs. destruct (Hlisted s Hs) as [l Hl].
    unfold verdict. rewrite (keepFacet_listed c s l Hl). reflexivity. }
  rewrite Hrun. simpl. eexists. eexists. split; [reflexivity|]. simpl.
  split; [reflexivity|]. split; [reflexivity|]. split; [reflexivity|].
  split; [reflexivity|]. split.
  - intros s l _ Hl. apply verdict_listed. assumption.
  - intros s. rewrite filter_In. split.
    + intros [Hin Hv]. split; [assumption|].
      destruct (Hlisted s Hin) as [l Hl]. exists l. split; [assumption|].
      apply (verdict_listed c s l Hl). assumption.
    + intros [Hin (l & Hl & Hpos)]. split; [assumption|].
      apply (verdict_listed c s l Hl). assumption.
Qed.

Lemma reconcile_retains_witness :
  exists st', reconcile (Some sample_catalogue)
      (sample_state (Some ["Assay Type|WES|Germline"; "Assay Type|WES|Somatic"]%string))
    = Normal st' /\
    IFilters.trial_ids (filters st') = Some ["NCI-001"%string] /\
    IFilters.facets (filters st') = Some ["Assay Type|WES|Somatic"%string].
Proof.
  destruct (reconcile_retains sample_catalogue
              (sample_state (Some ["Assay Type|WES|Germline"; "Assay Type|WES|Somatic"]%string))
              ["Assay Type|WES|Germline"; "Assay Type|WES|Somatic"]%string eq_refl)
    as (st' & kept & Hrun & _ & Htrials & Hfacets & Hkept & _).
  - intros s Hin. exists [sample_germline; sample_somatic].
    exists sample_groups, sample_wes.
    destruct Hin as [<-|[<-|[]]]; vm_compute; repeat split.
  - exists st'. split; [exact Hrun|]. split; [exact Htrials|].
    rewrite Hfacets, Hkept. reflexivity.
Defined.

(** X2.  Where some selected string refers to a record without a
    positive count or to a number, the effect ends in a [TypeError]. *)
Theorem reconcile_raises c st fs s :
  IFilters.facets (filters st) = Some fs -> In s fs -> unfilterable c s ->
  reconcile (Some c) st = Throw TypeError.
Proof.
  intros Hfs Hin Hbad. unfold reconcile. rewrite Hfs.
  rewrite (filterM_throw (keepFacet c) fs s Hin (keepFacet_unfilterable c s Hbad)).
  reflexivity.
Qed.

Lemma reconcile_raises_witness :
  reconcile (Some sample_catalogue)
    (sample_state (Some ["Assay Type|WES|Somatic"; "Clinical Type|length|x"]%string))
  = Throw TypeError.
Proof.
  apply (reconcile_raises sample_catalogue
           (sample_state (Some ["Assay Type|WES|Somatic"; "Clinical Type|length|x"]%string))
           ["Assay Type|WES|Somatic"; "Clinical Type|length|x"]%string
           "Clinical Type|length|x" eq_refl).
  - right. left. reflexivity.
  - vm_compute. exact I.
Defined.

(** ** Toggling a leaf facet *)

Lemma includes_In xs v : includes xs v = true <-> In v xs.
Proof.
  unfold includes. rewrite existsb_exists. split.
  - intros (x & Hx & E). apply String.eqb_eq in E. subst. assumption.
  - intros H. exists v. split; [assumption|apply String.eqb_refl].
Qed.

Lemma filters_of_setFilter_same k v st : filters_of k (filters (setFilter k v st)) = v.
Proof. destruct k; reflexivity. Qed.

Lemma filters_of_setFilter_other k k' v st :
  k' <> k -> filters_of k' (filters (setFilter k v st)) = filters_of k' (filters st).
Proof. destruct k, k'; intros H; try reflexivity; contradiction. Qed.

(** [toggleFilter] appends a value that is not selected and removes one
    that is, whatever the catalogue says about it. *)
Lemma toggleFilter_spec k v st :
  facets (toggleFilter k v st) = facets st /\
  (forall k', k' <> k ->
     filters_of k' (filters (toggleFilter k v st)) = filters_of k' (filters st)) /\
  (~ In v (default [] (filters_of k (filters st))) ->
     filters_of k (filters (toggleFilter k v st)) =
       Some (default [] (filters_of k (filters st)) ++ [v])) /\
  (In v (default [] (filters_of k (filters st))) ->
     filters_of k (filters (toggleFilter k v st)) =
       Some (List.filter (fun cv => negb (String.eqb cv v)) (default [] (filters_of k (filters st)))) /\
     ~ In v (List.filter (fun cv => negb (String.eqb cv v)) (default [] (filters_of k (filters st))))).
Proof.
  unfold toggleFilter. split; [reflexivity|]. split; [|split].
  - intros k' Hne. apply filters_of_setFilter_other. assumption.
  - intros Hout. rewrite filters_of_setFilter_same.
    destruct (includes _ v) eqn:E; [apply includes_In in E; contradiction|reflexivity].
  - intros Hin. rewrite filters_of_setFilter_same.
    pose proof Hin as Hin'. apply includes_In in Hin'. rewrite Hin'.
    split; [reflexivity|].
    rewrite filter_In, negb_true_iff, String.eqb_refl. intros [_ H]. discriminate.
Qed.

(** For a leaf, [updateFilters] is [toggleFilter] on the leaf's string. *)
Lemma updateFilters_leaf st c k v info str :
  facets st = Some c -> leaf c k v info str ->
  updateFilters k v st = Normal (toggleFilter k str st).
Proof.
  intros Hc Hleaf. unfold updateFilters. rewrite Hc.
  destruct Hleaf as [groups cat d facet l info Hg Hcat Hd Hin Hne
                    |groups cat l info Hg Hcat Hin
                    |info Hin].
  - simpl. apply String.eqb_neq in Hne. rewrite Hne. reflexivity.
  - simpl. rewrite Hg. simpl. rewrite Hcat. reflexivity.
  - reflexivity.
Qed.

(** C5, as the claim states it, fails: the sub-facet "Germline" of
    "Assay Type|WES" has count 0 in the catalogue, nothing is selected,
    and [updateFilters] with its path writes "Assay Type|WES|Germline"
    into the facet filters. *)
Lemma zero_count_leaf_is_added :
  count sample_germline = 0 /\
  leaf sample_catalogue K_facets (Path ["Assay Type"; "WES"; "Germline"]%string)
       sample_germline "Assay Type|WES|Germline" /\
  updateFilters K_facets (Path ["Assay Type"; "WES"; "Germline"]%string) (sample_state None)
    = Normal (sample_state (Some ["Assay Type|WES|Germline"%string])) /\
  filters (sample_state (Some ["Assay Type|WES|Germline"%string])) <> filters (sample_state None).
Proof.
  split; [reflexivity|]. split; [|split; [reflexivity|discriminate]].
  apply (leaf_nested sample_catalogue sample_groups "Assay Type" sample_wes "WES"
           [sample_germline; sample_somatic] sample_germline);
    try reflexivity; [left; reflexivity|discriminate].
Qed.

(** C5, amended.  For every leaf facet, whatever its count (0 included),
    [updateFilters] with the leaf's path toggles the leaf's string in the
    filters held under that key: the string is appended when it is not
    selected and removed when it is; the catalogue and the filters held
    under the other key are untouched. *)
Theorem leaf_toggle_ignores_count st c k v info str :
  facets st = Some c -> leaf c k v info str ->
  exists st', updateFilters k v st = Normal st' /\
    facets st' = facets st /\
    (forall k', k' <> k -> filters_of k' (filters st') = filters_of k' (filters st)) /\
    (~ In str (default [] (filters_of k (filters st))) ->
       filters_of k (filters st') = Some (default [] (filters_of k (filters st)) ++ [str])) /\
    (In str (default [] (filters_of k (filters st))) ->
       filters_of k (filters st') =
         Some (List.filter (fun cv => negb (String.eqb cv str))
                 (default [] (filters_of k (filters st)))) /\
       ~ In str (List.filter (fun cv => negb (String.eqb cv str))
                   (default [] (filters_of k (filters st))))).
Proof.
  intros Hc Hleaf. exists (toggleFilter k str st).
  split; [apply (updateFilters_leaf st c k v info str Hc Hleaf)|].
  apply toggleFilter_spec.
Qed.

Lemma leaf_toggle_ignores_count_witness :
  exists st', updateFilters K_facets (Path ["Assay Type"; "WES"; "Germline"]%string)
                (sample_state (Some ["Assay Type|WES|Somatic"%string])) = Normal st' /\
    IFilters.facets (filters st') =
      Some ["Assay Type|WES|Somatic"; "Assay Type|WES|Germline"]%string.
Proof.
  destruct (leaf_toggle_ignores_count
              (sample_state (Some ["Assay Type|WES|Somatic"%string])) sample_catalogue K_facets
              (Path ["Assay Type"; "WES"; "Germline"]%string) sample_germline
              "Assay Type|WES|Germline" eq_refl)
    as (st' & Hrun & _ & _ & Hadd & _).
  - apply (leaf_nested sample_catalogue sample_groups "Assay Type" sample_wes "WES"
             [sample_germline; sample_somatic] sample_germline);
      try reflexivity; [left; reflexivity|discriminate].
  - exists st'. split; [exact Hrun|]. apply Hadd.
    simpl. intros [H|[]]. discriminate.
Defined.

(** ** Toggling a whole family *)

Lemma in_uniq_from x xs seen :
  In x (fold_left (fun seen x => if includes seen x then seen else seen ++ [x]) xs seen)
  <-> In x seen \/ In x xs.
Proof.
  revert seen. induction xs as [|a xs IH]; intros seen; simpl; [tauto|].
  rewrite IH. destruct (includes seen a) eqn:E.
  - apply includes_In in E. split; [tauto|].
    intros [H|[<-|H]]; tauto.
  - rewrite in_app_iff. simpl. tauto.
Qed.

Lemma in_uniq x xs : In x (uniq xs) <-> In x xs.
Proof. unfold uniq. rewrite in_uniq_from. simpl. tauto. Qed.

(** X3.  With the path of a family (a facet of a nested category, no
    sub-facet), [updateFilters] leaves the trial-id filters alone and
    writes facet filters in which every string was selected before or
    stands for a sub-facet record of the family with a positive count:
    a sub-facet whose count is 0 is never added on this path. *)
Theorem family_toggle_adds_positive_only st c groups cat d facet l :
  facets st = Some c -> IFacets.facets c = Some groups ->
  groups !! cat = Some (Nested d) -> d !! facet = Some l ->
  exists st' newFilters,
    updateFilters K_facets (Path [cat; facet]) st = Normal st' /\
    IFilters.trial_ids (filters st') = IFilters.trial_ids (filters st) /\
    IFilters.facets (filters st') = Some newFilters /\
    forall s, In s newFilters ->
      In s (default [] (IFilters.facets (filters st))) \/
      exists info, In info l /\ 0 < count info /\
        s = join ARRAY_PARAM_DELIM [join ARRAY_PARAM_DELIM [cat; facet]; label info].
Proof.
  intros Hc Hg Hcat Hd. unfold updateFilters. rewrite Hc. simpl.
  rewrite Hg. simpl. rewrite Hcat. simpl. rewrite Hd. simpl.
  eexists. eexists. split; [reflexivity|]. simpl.
  split; [reflexivity|]. split; [reflexivity|].
  intros s Hs. destruct (Nat.eqb _ _).
  - apply filter_In in Hs as [Hs _]. left. exact Hs.
  - apply in_uniq, in_app_iff in Hs as [Hs|Hs]; [left; exact Hs|right].
    apply in_map_iff in Hs as (info & <- & Hin).
    apply filter_In in Hin as [Hin Hpos]. apply Z.ltb_lt in Hpos.
    exists info. repeat split; assumption.
Qed.

Lemma family_toggle_adds_positive_only_witness :
  exists st' newFilters,
    updateFilters K_facets (Path ["Assay Type"; "WES"]%string) (sample_state None) = Normal st' /\
    IFilters.facets (filters st') = Some newFilters /\
    newFilters = ["Assay Type|WES|Somatic"%string].
Proof.
  destruct (family_toggle_adds_positive_only (sample_state None) sample_catalogue sample_groups
              "Assay Type" sample_wes "WES" [sample_germline; sample_somatic]
              eq_refl eq_refl eq_refl eq_refl)
    as (st' & newFilters & Hrun & _ & Hnew & _).
  exists st', newFilters. split; [exact Hrun|]. split; [exact Hnew|].
  vm_compute in Hrun. inversion Hrun; subst st'. simpl in Hnew. inversion Hnew. reflexivity.
Defined.

(** ** The reconciliation as a fixed point *)

Lemma filterM_fixed {A} (f : A -> completion bool) (l k : list A) :
  filterM f l = Normal k -> filterM f k = Normal k.
Proof.
  revert k. induction l as [|x l IH]; simpl; intros k H.
  - inversion H. reflexivity.
  - destruct (f x) as [b|e] eqn:Ex; simpl in H; [|discriminate].
    destruct (filterM f l) as [r|e] eqn:Er; simpl in H; [|discriminate].
    inversion H; subst k. specialize (IH r eq_refl).
    destruct b; [|exact IH].
    simpl. rewrite Ex. simpl. rewrite IH. reflexivity.
Qed.

Lemma filterM_sublist {A} (f : A -> completion bool) (l k : list A) :
  filterM f l = Normal k -> sublist k l.
Proof.
  revert k. induction l as [|x l IH]; simpl; intros k H.
  - inversion H. constructor.
  - destruct (f x) as [b|e]; simpl in H; [|discriminate].
    destruct (filterM f l) as [r|e]; simpl in H; [|discriminate].
    inversion H; subst k. specialize (IH r eq_refl).
    destruct b; [apply sublist_skip|apply sublist_cons]; assumption.
Qed.

(** X4.  Whenever the reconciliation effect completes, the facet filters
    it writes are a sub-list of the ones it read (it only removes), and
    running it again on its own result with the same catalogue changes
    nothing: the write-back that re-triggers the effect reaches a fixed
    point after one step. *)
Theorem reconcile_fixed_point c st st' :
  reconcile (Some c) st = Normal st' ->
  reconcile (Some c) st' = Normal st' /\
  IFilters.trial_ids (filters st') = IFilters.trial_ids (filters st) /\
  (IFilters.facets (filters st) = None -> IFilters.facets (filters st') = None) /\
  (forall fs, IFilters.facets (filters st) = Some fs ->
     exists kept, IFilters.facets (filters st') = Some kept /\ sublist kept fs).
Proof.
  unfold reconcile. intros H.
  destruct (IFilters.facets (filters st)) as [fs|] eqn:E; simpl in H.
  - destruct (filterM (keepFacet c) fs) as [kept|e] eqn:Ek; simpl in H; [|discriminate].
    inversion H; subst st'; clear H. simpl.
    rewrite (filterM_fixed _ _ _ Ek). simpl.
    split; [reflexivity|]. split; [reflexivity|]. split; [discriminate|].
    intros fs' Hfs. inversion Hfs; subst fs'.
    exists kept. split; [reflexivity|]. eapply filterM_sublist; eassumption.
  - inversion H; subst st'; clear H. simpl.
    split; [reflexivity|]. split; [reflexivity|]. split; [reflexivity|]. discriminate.
Qed.

Lemma reconcile_fixed_point_witness :
  reconcile (Some sample_catalogue)
    (sample_state (Some ["Assay Type|WES|Somatic"%string]))
  = Normal (sample_state (Some ["Assay Type|WES|Somatic"%string])).
Proof.
  destruct (reconcile_fixed_point sample_catalogue
              (sample_state (Some ["Assay Type|WES|Germline"; "Assay Type|WES|Somatic"]%string))
              (sample_state (Some ["Assay Type|WES|Somatic"%string])) eq_refl)
    as (Hfix & _).
  exact Hfix.
Defined.

(** ** Clearing *)

(** X5.  After [clearFilters] no filter is held: [hasFilters] is false,
    and a catalogue refresh completes without touching the filters.
    Toggling one value into the cleared filters makes [hasFilters] true;
    toggling the same value again leaves an empty list under that key,
    which [hasFilters] counts as no filter. *)
Theorem clear_then_toggle st c k v :
  hasFilters (filters (clearFilters st)) = false /\
  reconcile (Some c) (clearFilters st) = Normal (setFacets c (clearFilters st)) /\
  filters (setFacets c (clearFilters st)) = filters (clearFilters st) /\
  hasFilters (filters (toggleFilter k v (clearFilters st))) = true /\
  filters_of k (filters (toggleFilter k v (toggleFilter k v (clearFilters st)))) = Some [] /\
  hasFilters (filters (toggleFilter k v (toggleFilter k v (clearFilters st)))) = false.
Proof.
  split; [reflexivity|]. split; [reflexivity|]. split; [reflexivity|].
  unfold toggleFilter, clearFilters.
  destruct k; simpl; rewrite !String.eqb_refl; repeat split.
Qed.

(** ** Selecting and deselecting a family *)

Lemma updateFilters_family st c groups cat d facet l :
  facets st = Some c -> IFacets.facets c = Some groups ->
  groups !! cat = Some (Nested d) -> d !! facet = Some l ->
  updateFilters K_facets (Path [cat; facet]) st =
  Normal (setFilter K_facets
    (Some (if Nat.eqb (length (List.filter (inFamily cat facet)
                                 (default [] (IFilters.facets (filters st)))))
                      (length (facetsInFamily cat facet l))
           then List.filter (fun f => negb (inFamily cat facet f))
                  (default [] (IFilters.facets (filters st)))
           else uniq (default [] (IFilters.facets (filters st)) ++ facetsInFamily cat facet l)))
    st).
Proof.
  intros Hc Hg Hcat Hd. unfold updateFilters. rewrite Hc. simpl.
  rewrite Hg. simpl. rewrite Hcat. simpl. rewrite Hd. reflexivity.
Qed.

Lemma NoDup_uniq_from xs seen :
  List.NoDup seen ->
  List.NoDup (fold_left (fun seen x => if includes seen x then seen else seen ++ [x]) xs seen).
Proof.
  revert seen. induction xs as [|a xs IH]; intros seen Hnd; simpl; [assumption|].
  apply IH. destruct (includes seen a) eqn:E; [assumption|].
  apply List.NoDup_app; [assumption|repeat constructor; simpl; tauto|].
  intros y Hy [<-|[]]. apply includes_In in Hy. congruence.
Qed.

Lemma uniq_NoDup_from xs seen :
  List.NoDup (seen ++ xs) ->
  fold_left (fun seen x => if includes seen x then seen else seen ++ [x]) xs seen = seen ++ xs.
Proof.
  revert seen. induction xs as [|a xs IH]; intros seen Hnd; simpl; [symmetry; apply app_nil_r|].
  destruct (includes seen a) eqn:E.
  - apply includes_In in E. apply List.NoDup_remove_2 in Hnd.
    exfalso. apply Hnd. apply in_or_app. left. assumption.
  - rewrite IH by (rewrite <- app_assoc; exact Hnd).
    rewrite <- app_assoc. reflexivity.
Qed.

Lemma prefix_append s t : String.prefix s (s +:+ t) = true.
Proof.
  induction s as [|a s IH]; simpl; [destruct t; reflexivity|].
  destruct (ascii_dec a a); [exact IH|contradiction].
Qed.

Lemma inFamily_facetsInFamily cat facet l s :
  In s (facetsInFamily cat facet l) -> inFamily cat facet s = true.
Proof.
  unfold facetsInFamily. intros H. apply in_map_iff in H as (f & <- & _).
  unfold inFamily, startsWith, join. simpl. apply prefix_append.
Qed.

Lemma filter_all {A} (f : A -> bool) (l : list A) :
  (forall x, In x l -> f x = true) -> List.filter f l = l.
Proof.
  induction l as [|x l IH]; simpl; intros H; [reflexivity|].
  rewrite (H x) by (left; reflexivity). f_equal. apply IH. intros y Hy. apply H. right. assumption.
Qed.

Lemma filter_none {A} (f : A -> bool) (l : list A) :
  (forall x, In x l -> f x = false) -> List.filter f l = [].
Proof.
  induction l as [|x l IH]; simpl; intros H; [reflexivity|].
  rewrite (H x) by (left; reflexivity). apply IH. intros y Hy. apply H. right. assumption.
Qed.

Lemma append_inj_l a s t : a +:+ s = a +:+ t -> s = t.
Proof.
  induction a as [|c a IH]; simpl; intros H; [exact H|].
  inversion H. apply IH. assumption.
Qed.

Lemma NoDup_map_injective {A B} (g : A -> B) (l : list A) :
  (forall x y, g x = g y -> x = y) -> List.NoDup l -> List.NoDup (map g l).
Proof.
  intros Hinj. induction 1 as [|x l Hnotin _ IH]; simpl; constructor; [|exact IH].
  intros Hin. apply in_map_iff in Hin as (y & E & Hy).
  apply Hinj in E. subst. contradiction.
Qed.

(** X6.  A family toggle either deselects or selects the whole family.
    When as many selected strings begin with the family prefix as the
    family has sub-facets of positive count, every string with that
    prefix is removed and the others stay, in order.  Otherwise the
    result has no duplicates and holds exactly the strings selected
    before together with the string of every sub-facet of positive
    count. *)
Theorem family_toggle_all_or_none st c groups cat d facet l :
  facets st = Some c -> IFacets.facets c = Some groups ->
  groups !! cat = Some (Nested d) -> d !! facet = Some l ->
  exists st' newFilters,
    updateFilters K_facets (Path [cat; facet]) st = Normal st' /\
    IFilters.facets (filters st') = Some newFilters /\
    (length (List.filter (inFamily cat facet) (default [] (IFilters.facets (filters st))))
       = length (facetsInFamily cat facet l) ->
     newFilters = List.filter (fun f => negb (inFamily cat facet f))
                    (default [] (IFilters.facets (filters st))) /\
     forall s, In s newFilters -> inFamily cat facet s = false) /\
    (length (List.filter (inFamily cat facet) (default [] (IFilters.facets (filters st))))
       <> length (facetsInFamily cat facet l) ->
     List.NoDup newFilters /\
     forall s, In s newFilters <->
       In s (default [] (IFilters.facets (filters st))) \/ In s (facetsInFamily cat facet l)).
Proof.
  intros Hc Hg Hcat Hd.
  rewrite (updateFilters_family st c groups cat d facet l Hc Hg Hcat Hd).
  eexists. eexists. split; [reflexivity|]. simpl. split; [reflexivity|].
  split; intros Hlen.
  - apply Nat.eqb_eq in Hlen. rewrite Hlen. split; [reflexivity|].
    intros s Hs. apply filter_In in Hs as [_ Hs]. apply negb_true_iff. exact Hs.
  - apply Nat.eqb_neq in Hlen. rewrite Hlen. split.
    + unfold uniq. apply NoDup_uniq_from. constructor.
    + intros s. rewrite in_uniq, in_app_iff. reflexivity.
Qed.

Lemma family_toggle_all_or_none_witness :
  exists st' newFilters,
    updateFilters K_facets (Path ["Assay Type"; "WES"]%string)
      (sample_state (Some ["Assay Type|WES|Somatic"; "Other|x|y"]%string)) = Normal st' /\
    IFilters.facets (filters st') = Some newFilters /\
    newFilters = ["Other|x|y"%string].
Proof.
  destruct (family_toggle_all_or_none
              (sample_state (Some ["Assay Type|WES|Somatic"; "Other|x|y"]%string))
              sample_catalogue sample_groups "Assay Type" sample_wes "WES"
              [sample_germline; sample_somatic] eq_refl eq_refl eq_refl eq_refl)
    as (st' & newFilters & Hrun & Hnew & Hall & _).
  exists st', newFilters. split; [exact Hrun|]. split; [exact Hnew|].
  destruct Hall as [Heq _]; [reflexivity|]. exact Heq.
Defined.

(** X7.  Selecting a family and deselecting it again is a round trip:
    when the selected facet strings have no duplicates, none of them
    begins with the family prefix, and the sub-facets of positive count
    carry distinct labels, two family toggles in a row give back the
    facet filters the first one found. *)
Theorem family_toggle_round_trip st c groups cat d facet l fs :
  facets st = Some c -> IFacets.facets c = Some groups ->
  groups !! cat = Some (Nested d) -> d !! facet = Some l ->
  IFilters.facets (filters st) = Some fs ->
  List.NoDup fs ->
  (forall s, In s fs -> inFamily cat facet s = false) ->
  List.NoDup (map label (List.filter (fun f => 0 <? count f) l)) ->
  exists st1 st2,
    updateFilters K_facets (Path [cat; facet]) st = Normal st1 /\
    updateFilters K_facets (Path [cat; facet]) st1 = Normal st2 /\
    IFilters.facets (filters st1) = Some (fs ++ facetsInFamily cat facet l) /\
    filters st2 = filters st.
Proof.
  intros Hc Hg Hcat Hd Hfs Hnd Hout Hlabels.
  set (P := facetsInFamily cat facet l).
  assert (HndP : List.NoDup P).
  { unfold P, facetsInFamily.
    rewrite <- (map_map label (fun s => join ARRAY_PARAM_DELIM
                                     [join ARRAY_PARAM_DELIM [cat; facet]; s])).
    apply NoDup_map_injective; [|exact Hlabels].
    intros x y E. unfold join in E. simpl in E.
    apply append_inj_l in E. apply append_inj_l in E. exact E. }
  assert (HinP : forall s, In s P -> inFamily cat facet s = true)
    by (intros s; apply inFamily_facetsInFamily).
  assert (Hndall : List.NoDup (fs ++ P)).
  { apply List.NoDup_app; [assumption|assumption|].
    intros s Hs HsP. pose proof (Hout s Hs). specialize (HinP s HsP). congruence. }
  assert (H0 : List.filter (inFamily cat facet) fs = []) by (apply filter_none; assumption).
  rewrite (updateFilters_family st c groups cat d facet l Hc Hg Hcat Hd).
  rewrite Hfs. change (default [] (Some fs)) with fs. rewrite H0.
  change (length (@nil string)) with 0%nat. fold P.
  assert (Hfirst : (if Nat.eqb 0 (length P)
                    then List.filter (fun f => negb (inFamily cat facet f)) fs
                    else uniq (fs ++ P)) = fs ++ P).
  { destruct P as [|p P'] eqn:EP; simpl.
    - rewrite app_nil_r. apply filter_all. intros s Hs. rewrite (Hout s Hs). reflexivity.
    - unfold uniq. rewrite uniq_NoDup_from by exact Hndall. reflexivity. }
  rewrite Hfirst.
  eexists. eexists. split; [reflexivity|].
  rewrite (updateFilters_family (setFilter K_facets (Some (fs ++ P)) st)
             c groups cat d facet l Hc Hg Hcat Hd).
  change (default [] (IFilters.facets (filters (setFilter K_facets (Some (fs ++ P)) st))))
    with (fs ++ P).
  fold P. rewrite !List.filter_app, H0.
  rewrite (filter_all (inFamily cat facet) P HinP).
  change ([] ++ P) with P. rewrite Nat.eqb_refl.
  split; [reflexivity|]. split; [reflexivity|].
  rewrite (filter_all _ fs) by (intros s Hs; rewrite (Hout s Hs); reflexivity).
  rewrite (filter_none _ P) by (intros s Hs; rewrite (HinP s Hs); reflexivity).
  rewrite app_nil_r. destruct st as [fc [t f]]. simpl in *. subst f. reflexivity.
Qed.

Lemma family_toggle_round_trip_witness :
  exists st1 st2,
    updateFilters K_facets (Path ["Assay Type"; "WES"]%string)
      (sample_state (Some ["Other|x|y"%string])) = Normal st1 /\
    updateFilters K_facets (Path ["Assay Type"; "WES"]%string) st1 = Normal st2 /\
    IFilters.facets (filters st1) = Some ["Other|x|y"; "Assay Type|WES|Somatic"]%string /\
    filters st2 = filters (sample_state (Some ["Other|x|y"%string])).
Proof.
  apply (family_toggle_round_trip (sample_state (Some ["Other|x|y"%string]))
           sample_catalogue sample_groups "Assay Type" sample_wes "WES"
           [sample_germline; sample_somatic] ["Other|x|y"%string]
           eq_refl eq_refl eq_refl eq_refl eq_refl).
  - repeat constructor. simpl. tauto.
  - intros s [<-|[]]. reflexivity.
  - simpl. repeat constructor. simpl. tauto.
Defined.

End FilterProviderSpec.

(** * Properties of the paginated file table *)

Module FileTableSpec.
Import FileTable.

(** ** The HTTP layer *)

Lemma length_cancel n m h : length (cancel n m h) = length h.
Proof. unfold cancel. apply length_alter. Qed.

Lemma length_settle n h : length (settle n h) = length h.
Proof. unfold settle. apply length_alter. Qed.

(** What a lookup in the request list sees after [cancel]. *)
Lemma lookup_cancel n m h k r :
  cancel n m h !! k = Some r ->
  exists r0, h !! k = Some r0 /\ query r = query r0 /\
    (status r0 = InFlight -> k = n -> status r = Cancelled m) /\
    (status r0 = InFlight -> k <> n -> status r = InFlight) /\
    (status r0 <> InFlight -> r = r0).
Proof.
  unfold cancel. intros H. rewrite list_lookup_alter in H.
  destruct (decide (n = k)) as [->|Hne].
  - destruct (h !! k) as [r0|] eqn:E; simpl in H; [|discriminate].
    exists r0. inversion H; subst; clear H.
    destruct (status r0) eqn:Es; simpl; rewrite ?Es;
      repeat split; try congruence; destruct r0; simpl in *; congruence.
  - exists r. repeat split; try congruence.
Qed.

Lemma lookup_settle n h k r :
  settle n h !! k = Some r ->
  exists r0, h !! k = Some r0 /\ query r = query r0 /\
    (k = n -> status r = Settled) /\ (k <> n -> r = r0).
Proof.
  unfold settle. intros H. rewrite list_lookup_alter in H.
  destruct (decide (n = k)) as [->|Hne].
  - destruct (h !! k) as [r0|] eqn:E; simpl in H; [|discriminate].
    exists r0. inversion H; subst. repeat split; congruence.
  - exists r. repeat split; congruence.
Qed.

(** ** The three branches of the effect *)


Lemma echo_test s :
  bool_decide (Some (queryPage s) = prevPage s) && negb (bool_decide (prevPage s = Some 0)) = true
  <-> stale_echo s.
Proof.
  unfold stale_echo. rewrite andb_true_iff, negb_true_iff, bool_decide_eq_true, bool_decide_eq_false.
  split; intros [H1 H2]; split; congruence.
Qed.


Lemma effect_echo s :
  stale_echo s ->
  effect s = setPrevPage (Some (queryPage s)) (setQueryPage (Some 0) s).
Proof.
  intros H. apply echo_test in H. unfold effect. rewrite H. reflexivity.
Qed.

Lemma effect_negative s :
  queryPage s < 0 ->
  effect s = setPrevPage (Some (queryPage s)) (setQueryPage (Some 0) s).
Proof.
  intros H. unfold effect.
  destruct (_ && _); [reflexivity|].
  apply Z.ltb_lt in H. rewrite H. reflexivity.
Qed.

Lemma effect_fetch s :
  ~ stale_echo s -> 0 <= queryPage s ->
  effect s =
    setPrevPage (Some (queryPage s))
      (setCanceller (Some (length (http s))) (cancel_current s ++ [issued_request s])
         (setData None s)).
Proof.
  intros Hne Hpos. unfold effect.
  destruct (_ && _) eqn:E; [apply echo_test in E; contradiction|].
  apply Z.ltb_ge in Hpos. rewrite Hpos. simpl.
  unfold cancel_current, issued_request.
  destruct (axiosCanceller s); simpl; rewrite ?length_cancel; reflexivity.
Qed.

Lemma effect_cases s :
  (stale_echo s \/ queryPage s < 0) \/ (~ stale_echo s /\ 0 <= queryPage s).
Proof.
  destruct (decide (stale_echo s)) as [H|H]; [left; left; exact H|].
  destruct (Z_lt_ge_dec (queryPage s) 0); [left; right; assumption|right; split; [assumption|lia]].
Qed.

Lemma length_cancel_current s : length (cancel_current s) = length (http s).
Proof. unfold cancel_current. destruct (axiosCanceller s); [apply length_cancel|reflexivity]. Qed.

(** After the current source is cancelled no earlier request is in
    flight, and one that was now carries the sentinel. *)
Lemma lookup_cancel_current s n r :
  live_is_current s ->
  cancel_current s !! n = Some r ->
  exists r0, http s !! n = Some r0 /\ query r = query r0 /\ status r <> InFlight /\
    (status r0 = InFlight -> status r = Cancelled CANCEL_MESSAGE) /\
    (status r0 <> InFlight -> r = r0).
Proof.
  intros Hlive H. unfold cancel_current in H.
  destruct (axiosCanceller s) as [c|] eqn:Ec.
  - apply lookup_cancel in H as (r0 & H0 & Hq & Hc & Hk & Hs).
    exists r0. split; [assumption|]. split; [assumption|].
    destruct (status r0) eqn:E0.
    + assert (c = n) as -> by (specialize (Hlive n r0 H0 E0); congruence).
      rewrite Hc by reflexivity. repeat split; congruence.
    + rewrite (Hs ltac:(discriminate)). repeat split; congruence.
    + rewrite (Hs ltac:(discriminate)). repeat split; congruence.
  - exists r. split; [assumption|]. split; [reflexivity|].
    assert (status r <> InFlight) by (intros E; specialize (Hlive n r H E); congruence).
    split; [assumption|]. split; [intros; contradiction|intros; reflexivity].
Qed.

(** ** The invariant *)

Lemma invariant_initial f p : invariant (initial f p).
Proof.
  repeat split; red; simpl; try (intros; discriminate).
  constructor.
Qed.

Lemma invariant_frame s s' :
  http s' = http s -> axiosCanceller s' = axiosCanceller s -> invariant s -> invariant s'.
Proof.
  intros Hh Hc (H1 & H2 & H3 & H4).
  repeat split; red; rewrite ?Hh, ?Hc; assumption.
Qed.

Lemma invariant_effect s : invariant s -> invariant (effect s).
Proof.
  intros Hinv.
  destruct (effect_cases s) as [[H|H]|[Hne Hpos]].
  - rewrite effect_echo by assumption. revert Hinv. apply invariant_frame; reflexivity.
  - rewrite effect_negative by assumption. revert Hinv. apply invariant_frame; reflexivity.
  - rewrite effect_fetch by assumption.
    destruct Hinv as (Hlive & Hlast & Hmsg & Hpages).
    repeat split; red; simpl.
    + intros n r H E.
      destruct (lookup_app_Some (cancel_current s) [issued_request s] n r) as [Happ _].
      destruct (Happ H) as [Hl|[Hlen Hr]].
      * apply (lookup_cancel_current s n r Hlive) in Hl as (r0 & _ & _ & Hn & _). contradiction.
      * rewrite length_cancel_current in Hlen, Hr.
        assert (n = length (http s)) as ->; [|reflexivity].
        apply lookup_lt_Some in Hr. simpl in Hr. lia.
    + intros n E. inversion E; subst. rewrite length_app, length_cancel_current. simpl. lia.
    + intros n r m H E.
      destruct (lookup_app_Some (cancel_current s) [issued_request s] n r) as [Happ _].
      destruct (Happ H) as [Hl|[Hlen Hr]].
      * apply (lookup_cancel_current s n r Hlive) in Hl as (r0 & H0 & _ & _ & Hc & Hs).
        destruct (status r0) eqn:E0.
        -- rewrite Hc in E by reflexivity. congruence.
        -- rewrite (Hs ltac:(discriminate)) in E. eapply Hmsg; eassumption.
        -- rewrite (Hs ltac:(discriminate)) in E. congruence.
      * destruct (n - length (cancel_current s))%nat; simpl in Hr; [|rewrite lookup_nil in Hr; discriminate].
        inversion Hr; subst. discriminate.
    + apply Forall_app. split.
      * apply Forall_lookup. intros n r H.
        apply (lookup_cancel_current s n r Hlive) in H as (r0 & H0 & Hq & _).
        rewrite Hq. red in Hpages. rewrite Forall_lookup in Hpages. eapply (Hpages n r0 H0).
      * constructor; [simpl; assumption|constructor].
Qed.

Lemma invariant_settle s n :
  invariant s -> invariant (setHttp (settle n (http s)) s).
Proof.
  intros (Hlive & Hlast & Hmsg & Hpages).
  repeat split; red; simpl.
  - intros k r H E. apply lookup_settle in H as (r0 & H0 & _ & Hk & Hne).
    destruct (decide (k = n)) as [->|Hd]; [rewrite Hk in E by reflexivity; discriminate|].
    rewrite (Hne Hd) in E. eapply Hlive; eassumption.
  - intros k E. rewrite length_settle. apply Hlast; assumption.
  - intros k r m H E. apply lookup_settle in H as (r0 & H0 & _ & Hk & Hne).
    destruct (decide (k = n)) as [->|Hd]; [rewrite Hk in E by reflexivity; discriminate|].
    rewrite (Hne Hd) in E. eapply Hmsg; eassumption.
  - apply Forall_lookup. intros k r H.
    apply lookup_settle in H as (r0 & H0 & Hq & _).
    rewrite Hq. red in Hpages. rewrite Forall_lookup in Hpages. eapply (Hpages k r0 H0).
Qed.

Lemma invariant_onFulfilled p files s : invariant s -> invariant (onFulfilled p files s).
Proof.
  unfold onFulfilled. destruct (_ >? _); apply invariant_frame; reflexivity.
Qed.

Lemma invariant_onRejected m s : invariant s -> invariant (onRejected m s).
Proof.
  unfold onRejected. destruct (negb _); [apply invariant_frame; reflexivity|trivial].
Qed.

Lemma invariant_step s e s' : invariant s -> step s e = Some s' -> invariant s'.
Proof.
  intros Hinv H. destruct e; simpl in H.
  - inversion H; subst. apply invariant_effect; assumption.
  - destruct (http s !! n) as [r|]; simpl in H; [|discriminate].
    destruct (status r); inversion H; subst.
    apply invariant_onFulfilled, invariant_settle; assumption.
  - destruct (http s !! n) as [r|]; simpl in H; [|discriminate].
    destruct (status r); [| destruct (String.eqb _ _) |]; inversion H; subst;
      apply invariant_onRejected, invariant_settle; assumption.
  - inversion H; subst. revert Hinv. apply invariant_frame; reflexivity.
  - inversion H; subst. revert Hinv. apply invariant_frame; reflexivity.
  - inversion H; subst. revert Hinv. apply invariant_frame; reflexivity.
  - inversion H; subst. revert Hinv. apply invariant_frame; reflexivity.
  - inversion H; subst. revert Hinv. apply invariant_frame; reflexivity.
Qed.

Lemma invariant_reachable s : reachable s -> invariant s.
Proof.
  induction 1 as [f p|s e s' _ IH Hstep].
  - apply invariant_initial.
  - eapply invariant_step; eassumption.
Qed.

(** ** Out-of-range page correction *)

(** C2.  For every successful paginated fetch: when the requested page
    times the page size (15) exceeds the reported total, the query page is
    reset to 0 and neither the table page nor the table data is written;
    otherwise the requested page becomes the table page and the fetched
    page the table data.  With page 2 and total 10, 2 * 15 = 30 > 10 and
    the query page is reset to 0. *)
Theorem out_of_range_page_correction s n r files :
  http s !! n = Some r -> status r = InFlight ->
  exists s', step s (Resolve n files) = Some s' /\
    page_size = 15 /\
    (Query.page_num (query r) * page_size > IDataWithMeta.meta_total files ->
       maybeQueryPage s' = Some 0 /\ queryPage s' = 0 /\
       data s' = data s /\ tablePage s' = tablePage s) /\
    (Query.page_num (query r) * page_size <= IDataWithMeta.meta_total files ->
       tablePage s' = Query.page_num (query r) /\ data s' = Some files /\
       maybeQueryPage s' = maybeQueryPage s) /\
    (Query.page_num (query r) = 2 -> IDataWithMeta.meta_total files = 10 ->
       Query.page_num (query r) * page_size = 30 /\ 30 > IDataWithMeta.meta_total files /\
       queryPage s' = 0 /\ data s' = data s /\ tablePage s' = tablePage s).
Proof.
  intros Hr Hs. simpl. rewrite Hr. simpl. rewrite Hs.
  eexists. split; [reflexivity|]. split; [reflexivity|].
  unfold onFulfilled, page_size.
  destruct (Z.gtb_spec (Query.page_num (query r) * 15) (IDataWithMeta.meta_total files)) as [Hgt|Hle].
  - repeat split; intros; simpl; try reflexivity; try lia.
  - repeat split; intros; simpl; try reflexivity; try lia.
Qed.

Lemma out_of_range_page_correction_witness :
  exists s', step sample_page2 (Resolve 0 sample_ten_results) = Some s' /\ queryPage s' = 0.
Proof.
  destruct (out_of_range_page_correction sample_page2 0 (issued_request (initial sample_filters (Some 2)))
              sample_ten_results eq_refl eq_refl)
    as (s' & Hstep & _ & _ & _ & Hscenario).
  exists s'. split; [exact Hstep|].
  destruct (Hscenario eq_refl eq_refl) as (_ & _ & Hq & _). exact Hq.
Defined.

(** ** Rejections *)

(** C7.  For every rejected fetch the displayed data, the pages and every
    other cell of the component are left as they were and no request is
    issued; a rejection carrying the cancellation sentinel writes nothing
    to the console, any other rejection appends its message to it. *)
Theorem rejection_taxonomy s n r message :
  http s !! n = Some r ->
  status r = InFlight \/ status r = Cancelled message ->
  exists s', step s (Fail n message) = Some s' /\
    CANCEL_MESSAGE = "cancelling stale filter request"%string /\
    (data s' = data s /\ tablePage s' = tablePage s /\
     maybeQueryPage s' = maybeQueryPage s /\ prevPage s' = prevPage s /\
     filters s' = filters s /\ selectedFileIds s' = selectedFileIds s /\
     headers s' = headers s /\ axiosCanceller s' = axiosCanceller s) /\
    (length (http s') = length (http s) /\
     forall k r', http s' !! k = Some r' -> status r' = InFlight -> http s !! k = Some r') /\
    (message = CANCEL_MESSAGE -> console s' = console s /\ onRejected message s = s) /\
    (message <> CANCEL_MESSAGE -> console s' = console s ++ [message]).
Proof.
  intros Hr Hs.
  exists (onRejected message (setHttp (settle n (http s)) s)). split.
  - simpl. rewrite Hr. simpl. destruct Hs as [-> | ->]; [reflexivity|].
    rewrite String.eqb_refl. reflexivity.
  - split; [reflexivity|].
    unfold onRejected.
    destruct (String.eqb_spec message CANCEL_MESSAGE) as [E|E]; simpl.
    + repeat split; try reflexivity; try (intros; congruence).
      * apply length_settle.
      * intros k r' Hk Hin. apply lookup_settle in Hk as (r0 & H0 & _ & Hk & Hne).
        destruct (decide (k = n)) as [->|Hd]; [rewrite Hk in Hin by reflexivity; discriminate|].
        rewrite (Hne Hd). assumption.
    + repeat split; try reflexivity; try (intros; congruence).
      * apply length_settle.
      * intros k r' Hk Hin. apply lookup_settle in Hk as (r0 & H0 & _ & Hk & Hne).
        destruct (decide (k = n)) as [->|Hd]; [rewrite Hk in Hin by reflexivity; discriminate|].
        rewrite (Hne Hd). assumption.
Qed.

Lemma rejection_taxonomy_witness :
  exists s', step sample_page2 (Fail 0 "Network Error") = Some s' /\
    data s' = data sample_page2 /\ console s' = ["Network Error"%string].
Proof.
  destruct (rejection_taxonomy sample_page2 0 (issued_request (initial sample_filters (Some 2)))
              "Network Error" eq_refl (or_introl eq_refl))
    as (s' & Hstep & _ & (Hdata & _) & _ & _ & Hlog).
  exists s'. split; [exact Hstep|]. split; [exact Hdata|].
  apply Hlog. discriminate.
Defined.

(** ** Negative pages *)

(** C6.  When the query page is negative the effect sets it to 0 and
    issues no fetch; every request an effect run hands to the HTTP layer,
    and so every request ever issued, asks for a page that is at least 0. *)
Theorem negative_page_clamp s :
  (queryPage s < 0 ->
     maybeQueryPage (effect s) = Some 0 /\ queryPage (effect s) = 0 /\
     http (effect s) = http s /\ axiosCanceller (effect s) = axiosCanceller s) /\
  (forall n r, http (effect s) !! n = Some r -> (length (http s) <= n)%nat ->
     0 <= Query.page_num (query r)) /\
  (reachable s -> forall r, In r (http s) -> 0 <= Query.page_num (query r)).
Proof.
  split; [|split].
  - intros H. rewrite effect_negative by assumption. repeat split.
  - intros n r Hr Hn.
    destruct (effect_cases s) as [[H|H]|[Hne Hpos]].
    + rewrite effect_echo in Hr by assumption. simpl in Hr.
      apply lookup_lt_Some in Hr. lia.
    + rewrite effect_negative in Hr by assumption. simpl in Hr.
      apply lookup_lt_Some in Hr. lia.
    + rewrite effect_fetch in Hr by assumption. simpl in Hr.
      rewrite lookup_app_r in Hr by (rewrite length_cancel_current; lia).
      rewrite length_cancel_current in Hr.
      destruct (n - length (http s))%nat; simpl in Hr; [|rewrite lookup_nil in Hr; discriminate].
      inversion Hr; subst. simpl. assumption.
  - intros Hreach r Hin.
    destruct (invariant_reachable s Hreach) as (_ & _ & _ & Hpages).
    red in Hpages. rewrite List.Forall_forall in Hpages. apply Hpages. assumption.
Qed.

Lemma negative_page_clamp_witness :
  maybeQueryPage (effect sample_negative) = Some 0 /\ http (effect sample_negative) = [].
Proof.
  destruct (negative_page_clamp sample_negative) as (Hneg & _ & _).
  destruct Hneg as (Hpage & _ & Hhttp & _); [vm_compute; reflexivity|].
  split; [exact Hpage|exact Hhttp].
Defined.

(** ** Supersession *)

(** In a reachable state a request that resolves is the one issued last. *)
Lemma resolved_is_last s n files s' :
  reachable s -> step s (Resolve n files) = Some s' -> S n = length (http s).
Proof.
  intros Hreach H.
  destruct (invariant_reachable s Hreach) as (Hlive & Hlast & _).
  simpl in H. destruct (http s !! n) as [r|] eqn:Er; simpl in H; [|discriminate].
  destruct (status r) eqn:Es; try discriminate.
  apply Hlast. eapply Hlive; eassumption.
Qed.

(** C3.  In every reachable state: (1) when an effect run issues a fetch,
    no earlier request is in flight afterwards, and one that was has been
    cancelled with the sentinel message; (2) a request that resolves is
    the one issued last, so only its result can be committed; (3) a
    superseded request never resolves into the component: its only
    possible end is a rejection with the sentinel, which leaves the
    displayed data, the pages and the console untouched. *)
Theorem last_request_wins s :
  reachable s ->
  (forall n r, http s !! n = Some r ->
     length (http (effect s)) = S (length (http s)) ->
     exists r', http (effect s) !! n = Some r' /\ query r' = query r /\
       status r' <> InFlight /\
       (status r = InFlight -> status r' = Cancelled CANCEL_MESSAGE)) /\
  (forall n files s', step s (Resolve n files) = Some s' -> S n = length (http s)) /\
  (forall n, (S n < length (http s))%nat ->
     (forall files, step s (Resolve n files) = None) /\
     (forall message s', step s (Fail n message) = Some s' ->
        message = CANCEL_MESSAGE /\ data s' = data s /\ tablePage s' = tablePage s /\
        maybeQueryPage s' = maybeQueryPage s /\ console s' = console s)).
Proof.
  intros Hreach.
  destruct (invariant_reachable s Hreach) as (Hlive & Hlast & Hmsg & _).
  assert (Hres : forall n files s', step s (Resolve n files) = Some s' -> S n = length (http s))
    by (intros n files s'; apply resolved_is_last; assumption).
  split; [|split].
  - intros n r Hr Hlen.
    destruct (effect_cases s) as [[H|H]|[Hne Hpos]].
    + rewrite effect_echo in Hlen by assumption. simpl in Hlen. lia.
    + rewrite effect_negative in Hlen by assumption. simpl in Hlen. lia.
    + rewrite effect_fetch by assumption. simpl.
      assert (Hlt : (n < length (cancel_current s))%nat)
        by (rewrite length_cancel_current; eapply lookup_lt_Some; eassumption).
      rewrite lookup_app_l by assumption.
      destruct (lookup_lt_is_Some_2 _ _ Hlt) as [r' Hr'].
      destruct (lookup_cancel_current s n r' Hlive Hr') as (r0 & H0 & Hq & Hn & Hc & _).
      assert (r0 = r) as -> by congruence.
      exists r'. repeat split; assumption.
  - exact Hres.
  - intros n Hn. split.
    + intros files. destruct (step s (Resolve n files)) as [s'|] eqn:E; [|reflexivity].
      apply Hres in E. lia.
    + intros message s' H. simpl in H.
      destruct (http s !! n) as [r|] eqn:Er; simpl in H; [|discriminate].
      destruct (status r) eqn:Es.
      * assert (S n = length (http s)) by (apply Hlast; eapply Hlive; eassumption). lia.
      * destruct (String.eqb_spec message message0) as [->|]; [|discriminate].
        assert (message0 = CANCEL_MESSAGE) as -> by (eapply Hmsg; eassumption).
        inversion H; subst. repeat split.
      * discriminate.
Qed.

Lemma last_request_wins_witness :
  step sample_superseded (Resolve 0 sample_ten_results) = None /\
  length (http sample_superseded) = 2%nat.
Proof.
  assert (Hreach : reachable sample_superseded).
  { apply (reachable_step (setQueryPage (Some 1) sample_page2) RunEffect); [|reflexivity].
    apply (reachable_step sample_page2 (ChangePage 1)); [|reflexivity].
    apply (reachable_step (initial sample_filters (Some 2)) RunEffect); [|reflexivity].
    apply reachable_initial. }
  destruct (last_request_wins sample_superseded Hreach) as (_ & _ & Hold).
  destruct (Hold 0%nat) as (Hnever & _); [vm_compute; lia|].
  split; [exact (Hnever sample_ten_results)|reflexivity].
Defined.

(** ** Re-homing to page 0 *)

Lemma queryPage_setQueryPage p s : queryPage (setQueryPage (Some p) s) = p.
Proof. reflexivity. Qed.

(** Running the effect until its dependencies are stable, from a state
    whose recorded previous page is the query page: exactly one fetch is
    issued, for page 0. *)
Lemma rehome s :
  prevPage s = Some (queryPage s) ->
  queryPage (run_effects s) = 0 /\
  prevPage (run_effects s) = Some 0 /\
  http (run_effects s) =
    cancel_current s ++ [ {| query := build_query 0 (filters s) (sortHeader s);
                             status := InFlight |} ] /\
  axiosCanceller (run_effects s) = Some (length (http s)) /\
  data (run_effects s) = None /\
  tablePage (run_effects s) = tablePage s.
Proof.
  intros Hprev. unfold run_effects.
  destruct (decide (queryPage s = 0)) as [Hz|Hnz].
  - assert (Hne : ~ stale_echo s) by (intros [_ H]; contradiction).
    rewrite effect_fetch by (assumption || lia). simpl.
    change (queryPage (setPrevPage _ _)) with (queryPage s).
    rewrite Z.eqb_refl. simpl.
    unfold issued_request. rewrite Hz. repeat split. exact Hz.
  - assert (Hecho : stale_echo s) by (split; assumption).
    rewrite effect_echo by assumption.
    set (s1 := setPrevPage (Some (queryPage s)) (setQueryPage (Some 0) s)).
    assert (Hq1 : queryPage s1 = 0) by reflexivity.
    rewrite Hq1. destruct (Z.eqb_spec 0 (queryPage s)) as [E|_]; [congruence|].
    assert (Hne : ~ stale_echo s1).
    { intros [H1 H2]. rewrite Hq1 in H2. contradiction. }
    rewrite effect_fetch by (assumption || (rewrite Hq1; lia)).
    simpl. unfold issued_request. rewrite Hq1. repeat split.
Qed.

(** However the effect is entered, once its dependencies are stable the
    recorded previous page is the query page. *)
Lemma run_effects_settled s :
  prevPage (run_effects s) = Some (queryPage (run_effects s)).
Proof.
  unfold run_effects.
  destruct (effect_cases s) as [Hreset|[Hne Hpos]].
  - assert (E : effect s = setPrevPage (Some (queryPage s)) (setQueryPage (Some 0) s))
      by (destruct Hreset; [apply effect_echo|apply effect_negative]; assumption).
    rewrite E.
    set (s1 := setPrevPage (Some (queryPage s)) (setQueryPage (Some 0) s)).
    assert (Hq1 : queryPage s1 = 0) by reflexivity.
    rewrite Hq1. destruct (Z.eqb_spec 0 (queryPage s)) as [E0|Hnz].
    + simpl. destruct Hreset as [[_ H]|H]; [congruence|lia].
    + assert (Hne : ~ stale_echo s1).
      { intros [H1 H2]. rewrite Hq1 in H2. contradiction. }
      rewrite effect_fetch by (assumption || (rewrite Hq1; lia)). reflexivity.
  - rewrite effect_fetch by assumption.
    change (queryPage (setPrevPage _ _)) with (queryPage s).
    rewrite Z.eqb_refl. reflexivity.
Qed.

Lemma reachable_run_effects s : reachable s -> reachable (run_effects s).
Proof.
  intros H. unfold run_effects.
  assert (H1 : reachable (effect s)) by (apply (reachable_step s RunEffect); [assumption|reflexivity]).
  destruct (_ =? _); [assumption|].
  apply (reachable_step (effect s) RunEffect); [assumption|reflexivity].
Qed.

(** C4, at the input where the code departs from it.  Page 2 of the
    results for trial NCI-001 has been requested and the request is in
    flight.  The filters change to trial NCI-002 and the effect runs: the
    query page equals the recorded previous page, so the effect resets the
    query page to 0 and, unlike its fetch branch, cancels nothing.  The
    request issued for the old filters then resolves and is committed: the
    table shows page 2 with the rows of trial NCI-001 under the filters
    for NCI-002.  Had the effect run once more before the answer arrived,
    the fetch branch would have cancelled that request. *)
Theorem stale_commit_after_filter_change :
  run (initial sample_filters (Some 2)) [RunEffect] = Some sample_page2 /\
  prevPage sample_page2 = Some (queryPage sample_page2) /\
  http sample_page2 =
    [ {| query := build_query 2 sample_filters (sortHeader sample_page2);
         status := InFlight |} ] /\
  exists s1 s2,
    run sample_page2 [Navigate sample_other_filters (Some 2); RunEffect] = Some s1 /\
    filters s1 = sample_other_filters /\
    maybeQueryPage s1 = Some 0 /\
    http s1 = http sample_page2 /\
    run s1 [Resolve 0 sample_old_rows] = Some s2 /\
    filters s2 = sample_other_filters /\
    tablePage s2 = 2 /\
    data s2 = Some sample_old_rows /\
    run s1 [RunEffect; Resolve 0 sample_old_rows] = None.
Proof.
  split; [reflexivity|]. split; [reflexivity|]. split; [reflexivity|].
  eexists. eexists.
  split; [vm_compute; reflexivity|].
  split; [reflexivity|]. split; [reflexivity|]. split; [reflexivity|].
  split; [vm_compute; reflexivity|].
  split; [reflexivity|]. split; [reflexivity|]. split; [reflexivity|].
  vm_compute. reflexivity.
Qed.

(** X18.  (1) On every run of the effect in which the query page equals
    the recorded previous page and that page is not 0, the query page is
    reset to 0 and no fetch is issued (nothing is cancelled, the table is
    untouched).  (2) Run until its dependencies are stable, the effect
    leaves the recorded previous page equal to the query page.  (3) When
    the filters change in such a state and the effect is then run until
    its dependencies are stable, it has issued exactly one fetch, for page
    0 and the new filters; a commit of that fetch sets the table page to
    0, and in a reachable state it is from then on the only request that
    can resolve.  (4) The trial table resets the number of loaded pages to
    1 when the trial-id filters change. *)
Theorem filter_change_rehomes_page s :
  (stale_echo s ->
     maybeQueryPage (effect s) = Some 0 /\ http (effect s) = http s /\
     axiosCanceller (effect s) = axiosCanceller s /\
     data (effect s) = data s /\ tablePage (effect s) = tablePage s) /\
  (forall s0, prevPage (run_effects s0) = Some (queryPage (run_effects s0))) /\
  (prevPage s = Some (queryPage s) -> forall f,
     queryPage (run_effects (setFilters f s)) = 0 /\
     length (http (run_effects (setFilters f s))) = S (length (http s)) /\
     axiosCanceller (run_effects (setFilters f s)) = Some (length (http s)) /\
     http (run_effects (setFilters f s)) !! length (http s) =
       Some {| query := build_query 0 f (sortHeader s); status := InFlight |} /\
     (forall files s2,
        step (run_effects (setFilters f s)) (Resolve (length (http s)) files) = Some s2 ->
        (0 <= IDataWithMeta.meta_total files -> data s2 = Some files /\ tablePage s2 = 0) /\
        (data s2 <> None -> data s2 = Some files /\ tablePage s2 = 0)) /\
     (reachable s -> forall n files s2,
        step (run_effects (setFilters f s)) (Resolve n files) = Some s2 ->
        n = length (http s))) /\
  (forall t ids,
     TrialTable.size (TrialTable.changeTrialIds ids t) = 1 /\
     TrialTable.trial_ids (TrialTable.changeTrialIds ids t) = ids).
Proof.
  split; [|split; [|split]].
  - intros H. rewrite effect_echo by assumption. repeat split.
  - apply run_effects_settled.
  - intros Hprev f.
    destruct (rehome (setFilters f s) Hprev) as (Hq & _ & Hh & Hc & Hd & Ht).
    simpl in Hh, Hc, Ht.
    assert (Hlen : length (cancel_current (setFilters f s)) = length (http s))
      by apply (length_cancel_current (setFilters f s)).
    assert (Hlook : http (run_effects (setFilters f s)) !! length (http s) =
              Some {| query := build_query 0 f (sortHeader s); status := InFlight |}).
    { rewrite Hh. rewrite lookup_app_r by (rewrite Hlen; lia).
      rewrite Hlen, Nat.sub_diag. reflexivity. }
    split; [assumption|]. split; [rewrite Hh, length_app, Hlen; simpl; lia|].
    assert (Hlen1 : length (http (run_effects (setFilters f s))) = S (length (http s)))
      by (rewrite Hh, length_app, Hlen; simpl; lia).
    split; [assumption|]. split; [assumption|]. split.
    + intros files s2 Hstep. simpl in Hstep. rewrite Hlook in Hstep. simpl in Hstep.
      inversion Hstep; subst; clear Hstep.
      unfold onFulfilled, page_size. simpl.
      destruct (Z.gtb_spec (0 * 15) (IDataWithMeta.meta_total files)) as [Hgt|Hle]; simpl.
      * split; [intros; lia|]. rewrite Hd. intros Hn. contradiction.
      * split; intros; split; reflexivity.
    + intros Hreach n files s2 Hstep.
      assert (Hreach1 : reachable (run_effects (setFilters f s))).
      { apply reachable_run_effects.
        apply (reachable_step s (Navigate f (maybeQueryPage s))); [assumption|reflexivity]. }
      apply (resolved_is_last _ n files s2 Hreach1) in Hstep. lia.
  - intros t ids. split; reflexivity.
Qed.

Lemma filter_change_rehomes_page_witness :
  maybeQueryPage (effect (setFilters sample_other_filters sample_page2)) = Some 0 /\
  http (effect (setFilters sample_other_filters sample_page2)) = http sample_page2 /\
  queryPage (run_effects (setFilters sample_other_filters sample_page2)) = 0 /\
  http (run_effects (setFilters sample_other_filters sample_page2)) !! 1%nat =
    Some {| query := build_query 0 sample_other_filters (sortHeader sample_page2);
            status := InFlight |}.
Proof.
  destruct (filter_change_rehomes_page (setFilters sample_other_filters sample_page2))
    as (Hecho & _).
  destruct Hecho as (Hpage & Hhttp & _); [split; [reflexivity|discriminate]|].
  destruct (filter_change_rehomes_page sample_page2) as (_ & _ & Hhome & _).
  destruct (Hhome eq_refl sample_other_filters) as (Hq & _ & _ & Hreq & _).
  split; [exact Hpage|]. split; [exact Hhttp|]. split; [exact Hq|exact Hreq].
Defined.

(** ** Sort headers *)

Lemma key_clickHeader c h : key (clickHeader c h) = key h.
Proof.
  unfold clickHeader. destruct (String.eqb _ _); [destruct (is_active h)|]; reflexivity.
Qed.

Lemma is_active_clickHeader c h :
  is_active (clickHeader c h) = String.eqb (key h) (key c).
Proof.
  unfold clickHeader. destruct (String.eqb _ _); [|reflexivity].
  destruct (is_active h) eqn:E; [|reflexivity].
  unfold is_active in *. simpl. exact E.
Qed.

Lemma keys_newHeaders c hs : map key (newHeaders c hs) = map key hs.
Proof.
  unfold newHeaders. rewrite map_map. apply map_ext. intros h. apply key_clickHeader.
Qed.

Lemma keys_clicked hs : clicked hs -> map key hs = map key initialHeaders.
Proof.
  induction 1 as [|hs c _ IH _]; [reflexivity|]. rewrite keys_newHeaders. exact IH.
Qed.

Lemma NoDup_keys_clicked hs : clicked hs -> List.NoDup (map key hs).
Proof.
  intros H. rewrite (keys_clicked hs H). simpl.
  repeat (constructor; [simpl; intuition discriminate|]). constructor.
Qed.

Lemma same_key_same_header (hs : list IHeader) a b :
  List.NoDup (map key hs) -> In a hs -> In b hs -> key a = key b -> a = b.
Proof.
  induction hs as [|h hs IH]; simpl; [contradiction|].
  intros Hnd [->|Ha] [->|Hb] Hk; inversion Hnd; subst.
  - reflexivity.
  - exfalso. apply H1. rewrite Hk. apply in_map. assumption.
  - exfalso. apply H1. rewrite <- Hk. apply in_map. assumption.
  - apply IH; assumption.
Qed.

Lemma one_header_per_key (hs : list IHeader) c :
  List.NoDup (map key hs) -> In c hs ->
  length (List.filter (fun h => String.eqb (key h) (key c)) hs) = 1%nat.
Proof.
  induction hs as [|h hs IH]; simpl; [contradiction|].
  intros Hnd Hin. inversion Hnd as [|k ks Hnotin Hnd']; subst.
  destruct (String.eqb_spec (key h) (key c)) as [E|E].
  - simpl. f_equal.
    assert (Hnone : forall x, In x hs -> String.eqb (key x) (key c) = false).
    { intros x Hx. apply String.eqb_neq. intros Hk. apply Hnotin.
      rewrite E, <- Hk. apply in_map. assumption. }
    clear -Hnone. induction hs as [|x xs IHx]; [reflexivity|].
    simpl. rewrite (Hnone x) by (left; reflexivity).
    apply IHx. intros y Hy. apply Hnone. right. assumption.
  - destruct Hin as [->|Hin]; [contradiction|]. apply IH; assumption.
Qed.

Lemma active_newHeaders c hs :
  List.filter is_active (newHeaders c hs) =
  newHeaders c (List.filter (fun h => String.eqb (key h) (key c)) hs).
Proof.
  unfold newHeaders. induction hs as [|h hs IH]; [reflexivity|].
  simpl. rewrite is_active_clickHeader.
  destruct (String.eqb _ _); simpl; rewrite IH; reflexivity.
Qed.

Lemma active_has_direction hs :
  clicked hs ->
  forall h, In h hs -> is_active h = true -> direction h = Some asc \/ direction h = Some desc.
Proof.
  induction 1 as [|hs c _ IH _]; intros h Hin Ha.
  - simpl in Hin. destruct Hin as [<-|[<-|[<-|[<-|[<-|[<-|[]]]]]]]; try discriminate.
    right. reflexivity.
  - unfold newHeaders in Hin. apply in_map_iff in Hin as (h0 & <- & Hin0).
    unfold clickHeader in *. destruct (String.eqb _ _); [|discriminate].
    destruct (is_active h0); simpl; [|right; reflexivity].
    destruct (direction h0) as [[]|]; simpl; auto.
Qed.

(** Only a header click writes the header list. *)
Lemma headers_step s e s' :
  (forall header, e <> ClickHeader header) -> step s e = Some s' -> headers s' = headers s.
Proof.
  intros Hne Hstep. destruct e; simpl in Hstep.
  - inversion Hstep; subst. unfold effect.
    destruct (_ && _); [reflexivity|]. destruct (_ <? _); reflexivity.
  - destruct (http s !! n) as [r|]; simpl in Hstep; [|discriminate].
    destruct (status r); inversion Hstep; subst.
    unfold onFulfilled. destruct (_ >? _); reflexivity.
  - destruct (http s !! n) as [r|]; simpl in Hstep; [|discriminate].
    destruct (status r) as [|m|]; [| |discriminate].
    + inversion Hstep; subst. unfold onRejected. destruct (negb _); reflexivity.
    + destruct (String.eqb message m); inversion Hstep; subst.
      unfold onRejected. destruct (negb _); reflexivity.
  - inversion Hstep; subst. reflexivity.
  - inversion Hstep; subst. reflexivity.
  - inversion Hstep; subst. reflexivity.
  - exfalso. apply (Hne header). reflexivity.
  - inversion Hstep; subst. reflexivity.
Qed.

Lemma rendered_clicks_clicked s : rendered_clicks s -> clicked (headers s).
Proof.
  induction 1 as [f p|s header _ IH Hin|s e s' _ IH Hne Hstep].
  - apply clicked_initial.
  - apply (clicked_click (headers s) header IH Hin).
  - rewrite (headers_step s e s' Hne Hstep). exact IH.
Qed.

(** C8.  The component starts with exactly one active header,
    [uploaded_timestamp] with direction [desc].  In every state it
    reaches, exactly one of its headers is active, and [onClickHeader]
    for a rendered header leaves exactly one active header, the clicked
    one: its direction is flipped when it was active already (an active
    header always has one, [asc] or [desc]) and is [desc] when it was
    not, and every other header is marked inactive.  The click changes no
    header's key or label and nothing else in the state. *)
Theorem single_active_sort_column s :
  rendered_clicks s ->
  (forall f p,
     List.filter is_active (headers (initial f p)) =
       [ {| key := "uploaded_timestamp"; label := "Date/Time Uploaded";
            active := Some true; direction := Some desc |} ]) /\
  length (List.filter is_active (headers s)) = 1%nat /\
  (forall h, In h (headers s) -> is_active h = true ->
     direction h = Some asc \/ direction h = Some desc) /\
  flipped (Some asc) = desc /\ flipped (Some desc) = asc /\
  forall header, In header (headers s) ->
    step s (ClickHeader header) = Some (onClickHeader header s) /\
    rendered_clicks (onClickHeader header s) /\
    length (List.filter is_active (headers (onClickHeader header s))) = 1%nat /\
    map key (headers (onClickHeader header s)) = map key (headers s) /\
    map label (headers (onClickHeader header s)) = map label (headers s) /\
    onClickHeader header s = setHeaders (headers (onClickHeader header s)) s /\
    (forall h', In h' (headers (onClickHeader header s)) ->
       (is_active h' = true <-> key h' = key header) /\
       (key h' <> key header -> active h' = Some false) /\
       (key h' = key header -> is_active header = true ->
          direction h' = Some (flipped (direction header))) /\
       (key h' = key header -> is_active header = false ->
          direction h' = Some desc)).
Proof.
  intros Hs. pose proof (rendered_clicks_clicked s Hs) as Hc.
  split; [reflexivity|].
  assert (Hclick : forall hs0 header, clicked hs0 -> In header hs0 ->
            length (List.filter is_active (newHeaders header hs0)) = 1%nat).
  { intros hs0 header H0 Hin. rewrite active_newHeaders. unfold newHeaders.
    rewrite length_map. apply one_header_per_key; [apply NoDup_keys_clicked|]; assumption. }
  split; [|split; [apply active_has_direction; assumption|]].
  - destruct Hc as [|hs0 header H0 Hin]; [reflexivity|]. apply Hclick; assumption.
  - split; [reflexivity|]. split; [reflexivity|].
    intros header Hin.
    change (headers (onClickHeader header s)) with (newHeaders header (headers s)).
    split; [reflexivity|].
    split; [apply rendered_clicks_click; assumption|].
    split; [apply Hclick; assumption|].
    split; [apply keys_newHeaders|].
    split.
    { unfold newHeaders. rewrite map_map. apply map_ext. intros h. unfold clickHeader.
      destruct (String.eqb _ _); [destruct (is_active h)|]; reflexivity. }
    split; [reflexivity|].
    intros h' Hh'. unfold newHeaders in Hh'. apply in_map_iff in Hh' as (h & <- & Hh).
    rewrite is_active_clickHeader, key_clickHeader.
    split; [apply String.eqb_eq|].
    split.
    + intros Hk. unfold clickHeader.
      destruct (String.eqb_spec (key h) (key header)); [contradiction|reflexivity].
    + assert (Hsame : key h = key header -> h = header)
        by (apply same_key_same_header with (hs := headers s);
            [apply NoDup_keys_clicked|..]; assumption).
      split; intros Hk Ha; rewrite (Hsame Hk); unfold clickHeader;
        rewrite String.eqb_refl, Ha; reflexivity.
Qed.

Lemma single_active_sort_column_witness :
  List.filter is_active
    (headers (onClickHeader sample_trial_header (initial sample_filters None)))
  = [ {| key := "trial_id"; label := "Protocol ID"; active := Some true;
         direction := Some desc |} ].
Proof.
  destruct (single_active_sort_column (initial sample_filters None)
              (rendered_clicks_initial sample_filters None))
    as (_ & _ & _ & _ & _ & Hclick).
  destruct (Hclick sample_trial_header) as (_ & _ & Hone & _); [right; left; reflexivity|].
  destruct (List.filter is_active
              (headers (onClickHeader sample_trial_header (initial sample_filters None))))
    as [|h [|h' rest]] eqn:E; [discriminate Hone| |discriminate Hone].
  rewrite <- E. reflexivity.
Defined.

(** ** Row selection *)

Lemma includes_id x (ids : list Z) : existsb (Z.eqb x) ids = true <-> In x ids.
Proof.
  rewrite existsb_exists. split.
  - intros (y & Hy & E). apply Z.eqb_eq in E. subst. assumption.
  - intros H. exists x. split; [assumption|apply Z.eqb_refl].
Qed.

Lemma in_without x (ids : list Z) y :
  In y (List.filter (fun i => negb (i =? x)) ids) <-> In y ids /\ y <> x.
Proof.
  rewrite filter_In, negb_true_iff, Z.eqb_neq. reflexivity.
Qed.

Lemma without_absent x (ids : list Z) :
  ~ In x ids -> List.filter (fun i => negb (i =? x)) ids = ids.
Proof.
  induction ids as [|a l IH]; simpl; [reflexivity|].
  intros H. destruct (Z.eqb_spec a x) as [->|_]; simpl.
  - exfalso. apply H. left. reflexivity.
  - f_equal. apply IH. intros Hin. apply H. right. assumption.
Qed.

Lemma without_permutation x (ids : list Z) :
  List.NoDup ids -> In x ids ->
  Permutation (List.filter (fun i => negb (i =? x)) ids ++ [x]) ids.
Proof.
  induction ids as [|a l IH]; simpl; [contradiction|].
  intros Hnd Hin. inversion Hnd as [|a' l' Hnotin Hnd']; subst.
  destruct (Z.eqb_spec a x) as [->|Hne]; simpl.
  - rewrite without_absent by assumption.
    symmetry. apply Permutation_cons_append.
  - destruct Hin as [E|Hin]; [contradiction|].
    apply perm_skip. apply IH; assumption.
Qed.

Lemma NoDup_newSelectedFileIds file (ids : list Z) :
  List.NoDup ids -> List.NoDup (newSelectedFileIds file ids).
Proof.
  intros Hnd. unfold newSelectedFileIds.
  destruct (existsb _ _) eqn:E.
  - apply List.NoDup_filter. assumption.
  - assert (Hnotin : ~ In (id file) ids)
      by (intros Hin; apply includes_id in Hin; congruence).
    apply List.NoDup_app; [assumption|repeat constructor; simpl; tauto|].
    intros y Hy [<-|[]]. contradiction.
Qed.

Lemma NoDup_toggled (ids : list Z) : toggled ids -> List.NoDup ids.
Proof.
  induction 1 as [|l f _ IH]; [constructor|].
  apply NoDup_newSelectedFileIds. assumption.
Qed.

(** C9.  A click on a row removes the file's id from the selection when
    it is present and appends it when it is absent.  Two clicks on the
    same row in succession give back the selection as a set (the same
    members; the very same list when the id was absent, a rearrangement
    when the selection had no duplicates), and a selection built from the
    empty one by clicks only has no duplicate ids. *)
Theorem row_click_toggle s file :
  (In (id file) (selectedFileIds s) ->
     selectedFileIds (onClickRow file s) =
       List.filter (fun i => negb (i =? id file)) (selectedFileIds s) /\
     ~ In (id file) (selectedFileIds (onClickRow file s)) /\
     forall x, x <> id file ->
       (In x (selectedFileIds (onClickRow file s)) <-> In x (selectedFileIds s))) /\
  (~ In (id file) (selectedFileIds s) ->
     selectedFileIds (onClickRow file s) = selectedFileIds s ++ [id file] /\
     selectedFileIds (onClickRow file (onClickRow file s)) = selectedFileIds s) /\
  (forall x, In x (selectedFileIds (onClickRow file (onClickRow file s))) <->
             In x (selectedFileIds s)) /\
  (List.NoDup (selectedFileIds s) ->
     List.NoDup (selectedFileIds (onClickRow file s)) /\
     Permutation (selectedFileIds (onClickRow file (onClickRow file s))) (selectedFileIds s)) /\
  (toggled (selectedFileIds s) -> List.NoDup (selectedFileIds s)).
Proof.
  set (ids := selectedFileIds s). set (x := id file).
  assert (Hin : In x ids ->
            newSelectedFileIds file ids = List.filter (fun i => negb (i =? x)) ids).
  { intros H. unfold newSelectedFileIds. fold x.
    apply includes_id in H. rewrite H. reflexivity. }
  assert (Hout : forall l, ~ In x l -> newSelectedFileIds file l = l ++ [x]).
  { intros l H. unfold newSelectedFileIds. fold x.
    destruct (existsb _ _) eqn:E; [apply includes_id in E; contradiction|reflexivity]. }
  assert (Hgone : ~ In x (List.filter (fun i => negb (i =? x)) ids)).
  { intros H. apply in_without in H as [_ H]. congruence. }
  assert (Hback : forall l, In x l -> newSelectedFileIds file l =
                                     List.filter (fun i => negb (i =? x)) l).
  { intros l H. unfold newSelectedFileIds. fold x.
    apply includes_id in H. rewrite H. reflexivity. }
  assert (Htwice_out : ~ In x ids ->
            newSelectedFileIds file (newSelectedFileIds file ids) = ids).
  { intros H. rewrite (Hout ids H).
    rewrite Hback by (apply in_or_app; right; left; reflexivity).
    rewrite List.filter_app, without_absent by assumption.
    simpl. rewrite Z.eqb_refl. simpl. apply app_nil_r. }
  simpl. fold ids. split; [|split; [|split; [|split]]].
  - intros H. rewrite (Hin H). split; [reflexivity|]. split; [assumption|].
    intros y Hy. rewrite in_without. tauto.
  - intros H. split; [apply Hout; assumption|apply Htwice_out; assumption].
  - intros y. destruct (in_dec Z.eq_dec x ids) as [H|H].
    + rewrite (Hin H), (Hout _ Hgone), in_app_iff, in_without. simpl.
      destruct (Z.eq_dec y x) as [->|Hne]; [tauto|].
      split; [intros [[Hy _]|[E|[]]]; [assumption|congruence]|intros Hy; left; tauto].
    + rewrite (Htwice_out H). reflexivity.
  - intros Hnd. split; [apply NoDup_newSelectedFileIds; assumption|].
    destruct (in_dec Z.eq_dec x ids) as [H|H].
    + rewrite (Hin H), (Hout _ Hgone). apply without_permutation; assumption.
    + rewrite (Htwice_out H). reflexivity.
  - apply NoDup_toggled.
Qed.

Lemma row_click_toggle_witness :
  selectedFileIds (onClickRow sample_file (initial sample_filters None)) = [7] /\
  selectedFileIds (onClickRow sample_file (onClickRow sample_file (initial sample_filters None))) = [].
Proof.
  destruct (row_click_toggle (initial sample_filters None) sample_file) as (_ & Hout & _).
  destruct Hout as (Hadd & Htwice); [simpl; tauto|].
  split; [exact Hadd|exact Htwice].
Defined.

(** ** More invariants of the reachable states *)

(** X8.  In every reachable state at most one request is in flight, and
    it is the one issued last. *)
Theorem at_most_one_in_flight s :
  reachable s ->
  forall i j ri rj,
    http s !! i = Some ri -> status ri = InFlight ->
    http s !! j = Some rj -> status rj = InFlight ->
    i = j /\ S i = length (http s).
Proof.
  intros Hreach i j ri rj Hi Si Hj Sj.
  destruct (invariant_reachable s Hreach) as (Hlive & Hlast & _).
  pose proof (Hlive i ri Hi Si) as Ci. pose proof (Hlive j rj Hj Sj) as Cj.
  split; [congruence|]. apply Hlast. assumption.
Qed.

Lemma at_most_one_in_flight_witness :
  1%nat = 1%nat /\ 2%nat = length (http sample_superseded).
Proof.
  assert (Hreach : reachable sample_superseded).
  { apply (reachable_step (setQueryPage (Some 1) sample_page2) RunEffect); [|reflexivity].
    apply (reachable_step sample_page2 (ChangePage 1)); [|reflexivity].
    apply (reachable_step (initial sample_filters (Some 2)) RunEffect); [|reflexivity].
    apply reachable_initial. }
  exact (at_most_one_in_flight sample_superseded Hreach 1%nat 1%nat _ _
           eq_refl eq_refl eq_refl eq_refl).
Defined.

Lemma page_in_range_frame s s' :
  tablePage s' = tablePage s -> (data s' = data s \/ data s' = None) ->
  page_in_range s -> page_in_range s'.
Proof.
  intros Ht Hd [H0 Hr]. split; rewrite Ht; [assumption|].
  intros files Hf. destruct Hd as [Hd|Hd]; rewrite Hd in Hf; [|discriminate].
  apply Hr. assumption.
Qed.

Lemma page_in_range_effect s : page_in_range s -> page_in_range (effect s).
Proof.
  destruct (effect_cases s) as [[H|H]|[Hne Hpos]].
  - rewrite effect_echo by assumption. apply page_in_range_frame; [reflexivity|left; reflexivity].
  - rewrite effect_negative by assumption. apply page_in_range_frame; [reflexivity|left; reflexivity].
  - rewrite effect_fetch by assumption. apply page_in_range_frame; [reflexivity|right; reflexivity].
Qed.

Lemma page_in_range_onFulfilled p files s :
  0 <= p -> page_in_range s -> page_in_range (onFulfilled p files s).
Proof.
  intros Hp Hs. unfold onFulfilled.
  destruct (Z.gtb_spec (p * page_size) (IDataWithMeta.meta_total files)) as [Hgt|Hle].
  - revert Hs. apply page_in_range_frame; [reflexivity|left; reflexivity].
  - split; simpl; [assumption|]. intros files' E. inversion E; subst. assumption.
Qed.

Lemma page_in_range_onRejected m s : page_in_range s -> page_in_range (onRejected m s).
Proof.
  unfold onRejected. destruct (negb _); [|trivial].
  apply page_in_range_frame; [reflexivity|left; reflexivity].
Qed.

Lemma page_in_range_step s e s' :
  invariant s -> page_in_range s -> step s e = Some s' -> page_in_range s'.
Proof.
  intros (_ & _ & _ & Hpages) Hs H. destruct e; simpl in H.
  - inversion H; subst. apply page_in_range_effect; assumption.
  - destruct (http s !! n) as [r|] eqn:Er; simpl in H; [|discriminate].
    destruct (status r); inversion H; subst.
    apply page_in_range_onFulfilled.
    + red in Hpages. rewrite Forall_lookup in Hpages. apply (Hpages n r Er).
    + revert Hs. apply page_in_range_frame; [reflexivity|left; reflexivity].
  - destruct (http s !! n) as [r|]; simpl in H; [|discriminate].
    destruct (status r); [| destruct (String.eqb _ _) |]; inversion H; subst;
      apply page_in_range_onRejected; revert Hs;
      apply page_in_range_frame; (reflexivity || (left; reflexivity)).
  - inversion H; subst. revert Hs. apply page_in_range_frame; [reflexivity|left; reflexivity].
  - inversion H; subst. revert Hs. apply page_in_range_frame; [reflexivity|left; reflexivity].
  - inversion H; subst. revert Hs. apply page_in_range_frame; [reflexivity|left; reflexivity].
  - inversion H; subst. revert Hs. apply page_in_range_frame; [reflexivity|left; reflexivity].
  - inversion H; subst. revert Hs. apply page_in_range_frame; [reflexivity|left; reflexivity].
Qed.

(** X9.  In every reachable state the table page is not negative, and
    while the table holds data the table page times the page size does
    not exceed the total reported with that data.  The bound is not
    strict: some reachable state shows data on a page other than the
    first that starts exactly at the total. *)
Theorem displayed_page_in_range s :
  reachable s ->
  0 <= tablePage s /\
  (forall files, data s = Some files ->
     tablePage s * page_size <= IDataWithMeta.meta_total files) /\
  exists s' files,
    reachable s' /\ data s' = Some files /\ 0 < tablePage s' /\
    tablePage s' * page_size = IDataWithMeta.meta_total files.
Proof.
  intros Hreach.
  assert (Hrange : page_in_range s).
  { induction Hreach as [f p|s e s' Hreach IH Hstep].
    - split; simpl; [lia|discriminate].
    - eapply page_in_range_step; [apply invariant_reachable| |]; eassumption. }
  destruct Hrange as [Hpage Hdata]. split; [exact Hpage|]. split; [exact Hdata|].
  exists (onFulfilled 2 sample_thirty_results
            (setHttp (settle 0 (http sample_page2)) sample_page2)), sample_thirty_results.
  split.
  - apply (reachable_step sample_page2 (Resolve 0 sample_thirty_results)); [|reflexivity].
    apply (reachable_step (initial sample_filters (Some 2)) RunEffect); [|reflexivity].
    apply reachable_initial.
  - split; [reflexivity|]. split; reflexivity.
Qed.

Lemma displayed_page_in_range_witness :
  step sample_page2 (Resolve 0 sample_old_rows)
    = Some (onFulfilled 2 sample_old_rows
              (setHttp (settle 0 (http sample_page2)) sample_page2)) /\
  data (onFulfilled 2 sample_old_rows
          (setHttp (settle 0 (http sample_page2)) sample_page2))
    = Some sample_old_rows /\
  tablePage (onFulfilled 2 sample_old_rows
               (setHttp (settle 0 (http sample_page2)) sample_page2)) * page_size
    <= IDataWithMeta.meta_total sample_old_rows.
Proof.
  assert (Hreach : reachable (onFulfilled 2 sample_old_rows
                                (setHttp (settle 0 (http sample_page2)) sample_page2))).
  { apply (reachable_step sample_page2 (Resolve 0 sample_old_rows)); [|reflexivity].
    apply (reachable_step (initial sample_filters (Some 2)) RunEffect); [|reflexivity].
    apply reachable_initial. }
  split; [reflexivity|]. split; [reflexivity|].
  exact (proj1 (proj2 (displayed_page_in_range _ Hreach)) sample_old_rows eq_refl).
Defined.

(** ** A change of sort column *)

Lemma find_active_newHeaders (hs : list IHeader) header :
  List.NoDup (map key hs) -> In header hs ->
  List.find is_active (newHeaders header hs) = Some (clickHeader header header).
Proof.
  unfold newHeaders. induction hs as [|h hs IH]; simpl; [contradiction|].
  intros Hnd Hin. rewrite is_active_clickHeader.
  destruct (String.eqb_spec (key h) (key header)) as [E|E].
  - f_equal. f_equal.
    apply (same_key_same_header (h :: hs)); [assumption|left; reflexivity|assumption|assumption].
  - inversion Hnd; subst. destruct Hin as [->|Hin]; [contradiction|]. apply IH; assumption.
Qed.

(** X10.  A click on a rendered header in a state whose recorded previous
    page is the query page makes the effect issue exactly one fetch: for
    page 0, with the unchanged filters, sorted by the clicked header's
    key, descending when the header was not the active one and with its
    direction flipped when it was. *)
Theorem sort_change_rehomes_page s header :
  clicked (headers s) -> In header (headers s) ->
  prevPage s = Some (queryPage s) ->
  queryPage (run_effects (onClickHeader header s)) = 0 /\
  length (http (run_effects (onClickHeader header s))) = S (length (http s)) /\
  exists r,
    http (run_effects (onClickHeader header s)) !! length (http s) = Some r /\
    status r = InFlight /\
    Query.page_num (query r) = 0 /\
    Query.page_size (query r) = 15 /\
    Query.trial_ids (query r) = fst (filterParams (filters s)) /\
    Query.facets (query r) = snd (filterParams (filters s)) /\
    Query.sort_field (query r) = Some (key header) /\
    Query.sort_direction (query r) =
      Some (if is_active header then flipped (direction header) else desc).
Proof.
  intros Hclicked Hin Hprev.
  destruct (rehome (onClickHeader header s) Hprev) as (Hq & _ & Hh & _).
  assert (Hlen : length (cancel_current (onClickHeader header s)) = length (http s))
    by apply (length_cancel_current (onClickHeader header s)).
  split; [exact Hq|]. split; [rewrite Hh, length_app, Hlen; simpl; lia|].
  eexists. split.
  - rewrite Hh. rewrite lookup_app_r by (rewrite Hlen; lia).
    rewrite Hlen, Nat.sub_diag. reflexivity.
  - unfold sortHeader, onClickHeader. simpl.
    rewrite (find_active_newHeaders (headers s) header
               (NoDup_keys_clicked _ Hclicked) Hin).
    simpl. rewrite key_clickHeader.
    repeat split. unfold clickHeader. rewrite String.eqb_refl.
    destruct (is_active header); reflexivity.
Qed.

Lemma sort_change_rehomes_page_witness :
  queryPage (run_effects (onClickHeader sample_trial_header sample_page2)) = 0 /\
  length (http (run_effects (onClickHeader sample_trial_header sample_page2))) = 2%nat.
Proof.
  destruct (sort_change_rehomes_page sample_page2 sample_trial_header)
    as (Hq & Hlen & _).
  - apply clicked_initial.
  - right. left. reflexivity.
  - reflexivity.
  - split; [exact Hq|exact Hlen].
Defined.

(** ** The file-name cell *)

Lemma split_nonempty c s : split c s <> [].
Proof.
  destruct s as [|a s]; simpl; [discriminate|].
  destruct (Ascii.eqb a c); [discriminate|]. destruct (split c s); discriminate.
Qed.

Lemma join_split c s : join (String c EmptyString) (split c s) = s.
Proof.
  unfold join. induction s as [|a s IH]; simpl; [reflexivity|].
  destruct (Ascii.eqb_spec a c) as [->|Hne].
  - pose proof (split_nonempty c s) as Hne.
    destruct (split c s) as [|x xs] eqn:E; [contradiction|].
    simpl in *. rewrite IH. reflexivity.
  - pose proof (split_nonempty c s) as Hs.
    destruct (split c s) as [|x xs] eqn:E; [contradiction|].
    simpl in *. destruct xs; simpl in *; rewrite <- IH; reflexivity.
Qed.

Lemma split_pieces c s piece : In piece (split c s) -> ~ occurs c piece.
Proof.
  unfold occurs. revert piece. induction s as [|a s IH]; simpl; intros piece H.
  - destruct H as [<-|[]]. simpl. tauto.
  - destruct (Ascii.eqb_spec a c) as [->|Hne].
    + destruct H as [<-|H]; [simpl; tauto|apply IH; assumption].
    + pose proof (split_nonempty c s) as Hs.
      destruct (split c s) as [|x xs] eqn:E; [contradiction|].
      destruct H as [<-|H].
      * simpl. intros [Hc|Hc]; [congruence|]. apply (IH x); [left; reflexivity|assumption].
      * apply IH. right. assumption.
Qed.

Lemma split_single c s : ~ occurs c s -> split c s = [s].
Proof.
  unfold occurs. induction s as [|a s IH]; simpl; intros H; [reflexivity|].
  destruct (Ascii.eqb_spec a c) as [->|Hne]; [exfalso; apply H; left; reflexivity|].
  rewrite IH by tauto. reflexivity.
Qed.

Lemma split_several c s : occurs c s -> (2 <= length (split c s))%nat.
Proof.
  unfold occurs. induction s as [|a s IH]; simpl; intros H; [contradiction|].
  pose proof (split_nonempty c s) as Hs.
  destruct (Ascii.eqb_spec a c) as [->|Hne].
  - destruct (split c s); [contradiction|]. simpl. lia.
  - destruct H as [H|H]; [congruence|]. specialize (IH H).
    destruct (split c s); [contradiction|]. simpl in *. lia.
Qed.

Lemma append_assoc (a b c : string) : (a +:+ b) +:+ c = a +:+ (b +:+ c).
Proof.
  induction a as [|x a IH]; [reflexivity|].
  change (String x ((a +:+ b) +:+ c) = String x (a +:+ (b +:+ c))).
  f_equal. exact IH.
Qed.

Lemma concat_snoc sep (init : list string) x y :
  String.concat sep ((x :: init) ++ [y]) = String.concat sep (x :: init) +:+ sep +:+ y.
Proof.
  revert x. induction init as [|z init IH]; intros x; simpl; [reflexivity|].
  specialize (IH z). simpl in IH. rewrite IH.
  rewrite !append_assoc. reflexivity.
Qed.

Lemma last_split (l : list string) :
  l <> [] ->
  exists y, l !! (length l - 1)%nat = Some y /\ l = take (length l - 1) l ++ [y].
Proof.
  intros Hne. destruct (exists_last Hne) as (init & y & ->).
  exists y. rewrite length_app. simpl.
  replace (length init + 1 - 1)%nat with (length init) by lia.
  split.
  - rewrite lookup_app_r by lia. rewrite Nat.sub_diag. reflexivity.
  - rewrite take_app_length. reflexivity.
Qed.

(** X11.  The file-name cell splits the object URL at its last slash:
    when the URL contains a slash, the prefix line (which ends in the
    slash) followed by the file-name line is the URL again; when it
    contains none, the prefix line is a bare slash and the file-name line
    is the whole URL.  The file-name line never contains a slash, and two
    rows link to the same target only if they have the same id. *)
Theorem formatObjectURL_splits_at_last_slash row :
  (occurs "/" (object_url row) ->
     prefixLine (formatObjectURL row) +:+ fileNameLine (formatObjectURL row) = object_url row) /\
  (~ occurs "/" (object_url row) ->
     prefixLine (formatObjectURL row) = "/"%string /\
     fileNameLine (formatObjectURL row) = object_url row) /\
  ~ occurs "/" (fileNameLine (formatObjectURL row)) /\
  (forall other, to (formatObjectURL row) = to (formatObjectURL other) -> id row = id other).
Proof.
  unfold formatObjectURL. simpl.
  set (paths := split "/" (object_url row)).
  destruct (last_split paths (split_nonempty _ _)) as (y & Hy & Hpaths).
  rewrite Hy. simpl.
  split; [|split; [|split]].
  - intros Hocc. apply split_several in Hocc. fold paths in Hocc.
    pose proof (join_split "/" (object_url row)) as Hjoin. fold paths in Hjoin.
    rewrite Hpaths in Hjoin. unfold join in *.
    destruct (take (length paths - 1) paths) as [|x init] eqn:E.
    + assert (length paths = 1%nat) by (rewrite Hpaths; reflexivity). lia.
    + rewrite concat_snoc in Hjoin. rewrite <- Hjoin.
      rewrite !append_assoc. reflexivity.
  - intros Hnone. apply split_single in Hnone. fold paths in Hnone.
    rewrite Hnone in Hy |- *. simpl in Hy. inversion Hy. split; reflexivity.
  - apply (split_pieces "/" (object_url row)). fold paths.
    rewrite Hpaths. apply in_or_app. right. left. reflexivity.
  - intros other E. apply FilterProviderSpec.append_inj_l in E. apply pretty_Z_inj in E. exact E.
Qed.

Lemma formatObjectURL_splits_at_last_slash_witness :
  prefixLine (formatObjectURL sample_file) = "trial/wes/"%string /\
  prefixLine (formatObjectURL sample_file) +:+ fileNameLine (formatObjectURL sample_file)
    = object_url sample_file.
Proof.
  destruct (formatObjectURL_splits_at_last_slash sample_file) as (Hsome & _).
  split; [reflexivity|]. apply Hsome. unfold occurs. simpl. tauto.
Defined.

(** ** Selecting rows and the download button *)

Lemma clicks_append (files : list DataFile) s :
  List.NoDup (selectedFileIds s ++ map id files) ->
  selectedFileIds (fold_left (fun s file => onClickRow file s) files s)
    = selectedFileIds s ++ map id files.
Proof.
  revert s. induction files as [|file files IH]; intros s Hnd; simpl.
  - symmetry. apply app_nil_r.
  - rewrite IH.
    + unfold onClickRow, newSelectedFileIds. simpl.
      destruct (existsb _ _) eqn:E.
      * apply includes_id in E. apply List.NoDup_remove_2 in Hnd.
        exfalso. apply Hnd. apply in_or_app. left. assumption.
      * rewrite <- app_assoc. reflexivity.
    + unfold onClickRow, newSelectedFileIds. simpl.
      destruct (existsb _ _) eqn:E.
      * apply includes_id in E. apply List.NoDup_remove_2 in Hnd.
        exfalso. apply Hnd. apply in_or_app. left. assumption.
      * rewrite <- app_assoc. exact Hnd.
Qed.

(** X12.  Starting from an empty selection, clicking rows with pairwise
    distinct ids selects exactly their ids, in click order; the download
    button is then enabled unless no row was clicked, captioned with the
    number of rows ("file" for one, "files" for more), and offers
    "Clear Selection".  After [clearIds] the selection is empty, the
    button is disabled, says "No files selected" and no longer offers to
    clear. *)
Theorem select_rows_then_clear s files :
  selectedFileIds s = [] -> List.NoDup (map id files) ->
  selectedFileIds (fold_left (fun s file => onClickRow file s) files s) = map id files /\
  disabled (batchDownloadButton (map id files)) = Nat.eqb (length files) 0 /\
  offersClear (batchDownloadButton (map id files)) = negb (Nat.eqb (length files) 0) /\
  (files <> [] ->
     caption (batchDownloadButton (map id files)) =
       "Download " +:+ pretty (length files) +:+ " " +:+
       (if (1 <? length files)%nat then "files" else "file")) /\
  selectedFileIds (clearIds (fold_left (fun s file => onClickRow file s) files s)) = [] /\
  batchDownloadButton
    (selectedFileIds (clearIds (fold_left (fun s file => onClickRow file s) files s)))
  = {| disabled := true; caption := "No files selected"; offersClear := false |}.
Proof.
  intros Hempty Hnd.
  split; [rewrite clicks_append; rewrite Hempty; [reflexivity|exact Hnd]|].
  unfold batchDownloadButton, filePluralized. simpl. rewrite !length_map.
  split; [reflexivity|]. split; [destruct files; reflexivity|].
  split; [|split; reflexivity].
  intros Hne. destruct files as [|f [|g files]]; [contradiction|reflexivity|reflexivity].
Qed.

Lemma select_rows_then_clear_witness :
  selectedFileIds (fold_left (fun s file => onClickRow file s) [sample_file]
                     (initial sample_filters None)) = [7] /\
  caption (batchDownloadButton [7]) = "Download 1 file"%string.
Proof.
  destruct (select_rows_then_clear (initial sample_filters None) [sample_file] eq_refl)
    as (Hsel & _ & _ & Hcap & _).
  - repeat constructor. simpl. tauto.
  - split; [exact Hsel|]. apply Hcap. discriminate.
Defined.

End FileTableSpec.

(** * Properties of the legacy file table *)

Module LegacyFileTableSpec.
Import LegacyFileTable.

Section Rows.

Context {File : Type}.
Variable compareAscending : string -> File -> File -> comparison.

#[local] Abbreviation orderBy := (orderBy compareAscending).
#[local] Abbreviation insertRow := (insertRow compareAscending).
#[local] Abbreviation inOrder := (inOrder compareAscending).

Lemma insertRow_permutation by_ dir x l : Permutation (insertRow by_ dir x l) (x :: l).
Proof.
  induction l as [|y l IH]; simpl; [reflexivity|].
  destruct (inOrder by_ dir x y); [reflexivity|].
  rewrite IH. apply perm_swap.
Qed.

Lemma orderBy_permutation files by_ dir : Permutation (orderBy files by_ dir) files.
Proof.
  induction files as [|x l IH]; simpl; [reflexivity|].
  rewrite insertRow_permutation. apply perm_skip. exact IH.
Qed.

Lemma length_orderBy files by_ dir : length (orderBy files by_ dir) = length files.
Proof. apply Permutation_length, orderBy_permutation. Qed.

Lemma inOrder_total by_ dir a b :
  antisymmetric compareAscending -> inOrder by_ dir a b = false -> inOrder by_ dir b a = true.
Proof.
  intros Hanti. unfold LegacyFileTable.inOrder. rewrite (Hanti by_ a b).
  destruct dir, (compareAscending by_ a b); simpl; congruence.
Qed.

Lemma insertRow_sorted by_ dir x l :
  antisymmetric compareAscending ->
  Sorted (fun a b => inOrder by_ dir a b = true) l ->
  Sorted (fun a b => inOrder by_ dir a b = true) (insertRow by_ dir x l).
Proof.
  intros Hanti. induction l as [|y l IH]; simpl; intros Hs.
  - repeat constructor.
  - destruct (inOrder by_ dir x y) eqn:E.
    + constructor; [assumption|constructor; assumption].
    + inversion Hs as [|y' l' Hs' Hhd]; subst. constructor; [apply IH; assumption|].
      destruct l as [|z l]; simpl.
      * constructor. apply inOrder_total; assumption.
      * destruct (inOrder by_ dir x z); constructor.
        -- apply inOrder_total; assumption.
        -- inversion Hhd; assumption.
Qed.

Lemma orderBy_sorted files by_ dir :
  antisymmetric compareAscending ->
  Sorted (fun a b => inOrder by_ dir a b = true) (orderBy files by_ dir).
Proof.
  intros Hanti. induction files as [|x l IH]; simpl; [constructor|].
  apply insertRow_sorted; assumption.
Qed.

(** The slice of one page, for a page and a page length that are not
    negative. *)
Lemma slice_page (xs : list File) p r :
  0 <= p -> 0 <= r ->
  slice xs (p * r) (p * r + r) = take (Z.to_nat r) (drop (Z.to_nat (p * r)) xs).
Proof.
  intros Hp Hr. unfold slice.
  assert (Hpr : 0 <= p * r) by nia.
  destruct (Z.ltb_spec (p * r) 0) as [|_]; [lia|].
  destruct (Z.ltb_spec (p * r + r) 0) as [|_]; [lia|].
  set (len := Z.of_nat (length xs)).
  destruct (Z_le_gt_dec (p * r) len) as [Hin|Hout].
  - rewrite (Z.min_l (p * r) len) by assumption.
    destruct (Z_le_gt_dec (p * r + r) len) as [Hfull|Hshort].
    + rewrite (Z.min_l (p * r + r) len) by assumption. f_equal. lia.
    + rewrite (Z.min_r (p * r + r) len) by lia.
      rewrite !take_ge; [reflexivity| |]; rewrite length_drop; unfold len in *; lia.
  - rewrite (Z.min_r (p * r) len) by lia. rewrite !drop_ge by (unfold len in *; lia).
    rewrite !take_nil. reflexivity.
Qed.

End Rows.

(** C10.  For every file list, every page and page length that are not
    negative, every sort key and direction: the rows rendered are the
    rows at indices [page * rowsPerPage] up to, but not including,
    [page * rowsPerPage + rowsPerPage] of the file list ordered by the
    key in the direction (a rearrangement of the input, sorted whenever
    the comparison is a genuine order); there are at most [rowsPerPage]
    of them, none when [page * rowsPerPage] is at or past the end of the
    list; the pagination count is the length of the whole list. *)
Theorem legacy_client_side_pagination {File : Type}
    (compareAscending : string -> File -> File -> comparison)
    (files : list File) (st : IFileTableState) :
  0 <= page st -> 0 <= rowsPerPage st ->
  Permutation (orderBy compareAscending files (sortBy st) (sortDirection st)) files /\
  (antisymmetric compareAscending ->
     Sorted (fun a b => inOrder compareAscending (sortBy st) (sortDirection st) a b = true)
       (orderBy compareAscending files (sortBy st) (sortDirection st))) /\
  rows (render compareAscending files st) =
    take (Z.to_nat (rowsPerPage st))
      (drop (Z.to_nat (page st * rowsPerPage st))
         (orderBy compareAscending files (sortBy st) (sortDirection st))) /\
  (forall i, (i < Z.to_nat (rowsPerPage st))%nat ->
     rows (render compareAscending files st) !! i =
     orderBy compareAscending files (sortBy st) (sortDirection st)
       !! (Z.to_nat (page st * rowsPerPage st) + i)%nat) /\
  (forall i, (Z.to_nat (rowsPerPage st) <= i)%nat ->
     rows (render compareAscending files st) !! i = None) /\
  Z.of_nat (length (rows (render compareAscending files st))) =
    Z.max 0 (Z.min (rowsPerPage st) (Z.of_nat (length files) - page st * rowsPerPage st)) /\
  Z.of_nat (length (rows (render compareAscending files st))) <= rowsPerPage st /\
  (Z.of_nat (length files) <= page st * rowsPerPage st ->
     rows (render compareAscending files st) = []) /\
  count (render compareAscending files st) = Z.of_nat (length files).
Proof.
  intros Hp Hr.
  assert (Hpr : 0 <= page st * rowsPerPage st) by nia.
  assert (Hrows := slice_page (orderBy compareAscending files (sortBy st) (sortDirection st))
                     (page st) (rowsPerPage st) Hp Hr).
  change (slice _ _ _) with (rows (render compareAscending files st)) in Hrows.
  assert (Hlen : length (rows (render compareAscending files st)) =
                 Nat.min (Z.to_nat (rowsPerPage st))
                         (length files - Z.to_nat (page st * rowsPerPage st))).
  { rewrite Hrows, length_take, length_drop, length_orderBy. reflexivity. }
  split; [apply orderBy_permutation|].
  split; [apply orderBy_sorted|].
  split; [exact Hrows|].
  split; [intros i Hi; rewrite Hrows, lookup_take_lt, lookup_drop by assumption; reflexivity|].
  split; [intros i Hi; rewrite Hrows; apply lookup_take_ge; assumption|].
  split; [lia|]. split; [lia|].
  split; [|reflexivity].
  intros Hpast. apply length_zero_iff_nil. lia.
Qed.

Lemma legacy_client_side_pagination_witness :
  rows (render sample_compare sample_rows sample_second_page) = [30; 40] /\
  count (render sample_compare sample_rows sample_second_page) = 5 /\
  Sorted (fun a b => inOrder sample_compare "file_size" asc a b = true)
    (orderBy sample_compare sample_rows "file_size" asc).
Proof.
  destruct (legacy_client_side_pagination sample_compare sample_rows sample_second_page)
    as (_ & Hsorted & Hrows & _ & _ & _ & _ & _ & Hcount); [simpl; lia|simpl; lia|].
  split; [exact Hrows|]. split; [exact Hcount|].
  apply Hsorted. intros by_ a b. apply Z.compare_antisym.
Defined.

(** ** Pages of the legacy table *)

Lemma take_plus {A} (n m : nat) (l : list A) :
  take (n + m) l = take n l ++ take m (drop n l).
Proof.
  revert l. induction n as [|n IH]; intros l; [reflexivity|].
  destruct l as [|x l]; simpl; [rewrite take_nil; reflexivity|].
  rewrite IH. reflexivity.
Qed.

Lemma length_slice {A} (xs ys : list A) a b :
  length xs = length ys -> length (slice xs a b) = length (slice ys a b).
Proof.
  intros H. unfold slice. rewrite !length_take, !length_drop, H. reflexivity.
Qed.

(** X13.  The pages of the legacy table tile the sorted list: for a page
    length that is not negative, the rows of pages 0, 1, ..., k-1 one
    after the other are the first [k * rowsPerPage] rows of the file list
    in sorted order, so no row is shown twice or skipped; once
    [k * rowsPerPage] reaches the length of the list they are the whole
    sorted list. *)
Theorem legacy_pages_tile {File : Type}
    (compareAscending : string -> File -> File -> comparison)
    (files : list File) (st : IFileTableState) (k : nat) :
  0 <= rowsPerPage st ->
  concat (map (fun p => rows (render compareAscending files (handleChangePage (Z.of_nat p) st)))
              (seq 0 k))
  = take (k * Z.to_nat (rowsPerPage st))
      (orderBy compareAscending files (sortBy st) (sortDirection st)) /\
  (Z.of_nat (length files) <= Z.of_nat k * rowsPerPage st ->
   concat (map (fun p => rows (render compareAscending files (handleChangePage (Z.of_nat p) st)))
               (seq 0 k))
   = orderBy compareAscending files (sortBy st) (sortDirection st)).
Proof.
  intros Hr.
  set (sorted := orderBy compareAscending files (sortBy st) (sortDirection st)).
  assert (Htile : concat (map (fun p => rows (render compareAscending files
                                   (handleChangePage (Z.of_nat p) st))) (seq 0 k))
                  = take (k * Z.to_nat (rowsPerPage st)) sorted).
  { induction k as [|k IH]; [reflexivity|].
    rewrite seq_S, map_app, concat_app, IH. simpl. rewrite app_nil_r.
    unfold render. simpl. fold sorted.
    rewrite slice_page by lia.
    replace (Z.to_nat (Z.of_nat k * rowsPerPage st)) with (k * Z.to_nat (rowsPerPage st))%nat
      by nia.
    rewrite (Nat.add_comm (Z.to_nat (rowsPerPage st))).
    symmetry. apply take_plus. }
  split; [exact Htile|].
  intros Hall. rewrite Htile. apply take_ge.
  unfold sorted. rewrite (length_orderBy compareAscending). nia.
Qed.

Lemma legacy_pages_tile_witness :
  concat (map (fun p => rows (render sample_compare sample_rows
                                (handleChangePage (Z.of_nat p) sample_second_page)))
              (seq 0 3))
  = [10; 20; 30; 40; 50].
Proof.
  destruct (legacy_pages_tile sample_compare sample_rows sample_second_page 3) as (_ & Hall);
    [simpl; lia|].
  apply Hall. simpl. lia.
Defined.

(** X14.  Sorting the legacy table never moves the page: a click on a
    column header keeps the page, the page length, the pagination count
    and the number of rows shown, and makes the clicked column the sort
    column.  A click on the current sort column flips the direction
    (ascending becomes descending and descending ascending, so the
    direction always changes) and two such clicks restore the state; a
    click on any other column sorts by it, ascending. *)
Theorem legacy_sorting_keeps_page {File : Type}
    (compareAscending : string -> File -> File -> comparison)
    (files : list File) (st : IFileTableState) (by_ : string) :
  page (handleChangeSorting by_ st) = page st /\
  rowsPerPage (handleChangeSorting by_ st) = rowsPerPage st /\
  sortBy (handleChangeSorting by_ st) = by_ /\
  count (render compareAscending files (handleChangeSorting by_ st))
    = count (render compareAscending files st) /\
  length (rows (render compareAscending files (handleChangeSorting by_ st)))
    = length (rows (render compareAscending files st)) /\
  sortDirection (handleChangeSorting (sortBy st) st)
    = match sortDirection st with asc => desc | desc => asc end /\
  sortDirection (handleChangeSorting (sortBy st) st) <> sortDirection st /\
  handleChangeSorting (sortBy st) (handleChangeSorting (sortBy st) st) = st /\
  (by_ <> sortBy st -> sortDirection (handleChangeSorting by_ st) = asc).
Proof.
  split; [reflexivity|]. split; [reflexivity|]. split; [reflexivity|]. split; [reflexivity|].
  split; [|split; [|split; [|split]]].
  - unfold render. simpl. apply length_slice.
    rewrite !(length_orderBy compareAscending). reflexivity.
  - destruct st as [r p k d]. unfold handleChangeSorting. simpl.
    rewrite String.eqb_refl. destruct d; reflexivity.
  - destruct st as [r p k d]. unfold handleChangeSorting. simpl.
    rewrite String.eqb_refl. destruct d; discriminate.
  - destruct st as [r p k d]. unfold handleChangeSorting. simpl.
    rewrite !String.eqb_refl. destruct d; reflexivity.
  - intros Hne. unfold handleChangeSorting. simpl.
    destruct (String.eqb_spec (sortBy st) by_) as [E|_]; [congruence|reflexivity].
Qed.

Lemma legacy_sorting_keeps_page_witness :
  sortDirection (handleChangeSorting "trial_name" sample_second_page) = asc /\
  sortDirection (handleChangeSorting "file_size" sample_second_page) = desc.
Proof.
  split.
  - destruct (legacy_sorting_keeps_page sample_compare sample_rows sample_second_page "trial_name")
      as (_ & _ & _ & _ & _ & _ & _ & _ & Hasc).
    apply Hasc. discriminate.
  - destruct (legacy_sorting_keeps_page sample_compare sample_rows sample_second_page "file_size")
      as (_ & _ & _ & _ & _ & Hflip & _).
    exact Hflip.
Defined.

End LegacyFileTableSpec.

(** * Properties of the trial table *)

Module TrialTableSpec.
Import TrialTable.

Section Pages.

Context {Trial : Type}.
Variable all : list Trial.
Variable apiFetch : TrialKey -> list Trial.
Variable tok : string.
Variable ids : option (list string).
Hypothesis Hserves : serves ids all apiFetch.

Lemma fetched_page index (prev : option (list Trial)) key :
  getTrialURL tok ids index prev = Some key ->
  apiFetch key = take 10 (drop (10 * index) all).
Proof.
  intros H.
  assert (page_size key = 10 /\ page_num key = Z.of_nat index /\
          key_trial_ids key = join "," <$> ids) as (Hsize & Hnum & Hids).
  { unfold getTrialURL in H. destruct prev as [[|x p]|]; inversion H; repeat split. }
  rewrite (Hserves key Hids), Hsize, Hnum.
  f_equal. f_equal. lia.
Qed.

Lemma no_key_after_empty_page index (prev : option (list Trial)) :
  getTrialURL tok ids index prev = None -> prev = Some [].
Proof.
  unfold getTrialURL. destruct prev as [[|x p]|]; [reflexivity|discriminate|discriminate].
Qed.

(** The pages loaded, one after the other, are an initial segment of the
    results, provided an empty previous page means the results are
    exhausted. *)
Lemma loadPages_concat count index prev :
  (prev = Some [] -> (length all <= 10 * index)%nat) ->
  concat (loadPages apiFetch (getTrialURL tok ids) count index prev)
  = take (10 * count) (drop (10 * index) all).
Proof.
  revert index prev. induction count as [|count IH]; intros index prev Hprev.
  - reflexivity.
  - cbn [loadPages].
    destruct (getTrialURL tok ids index prev) as [key|] eqn:E.
    + cbn [concat]. rewrite (fetched_page index prev key E).
      rewrite IH.
      * replace (10 * S count)%nat with (10 + 10 * count)%nat by lia.
        rewrite LegacyFileTableSpec.take_plus, drop_drop.
        do 3 f_equal. lia.
      * intros Hempty.
        assert (Hlen : length (take 10 (drop (10 * index) all)) = 0%nat)
          by (apply length_zero_iff_nil; congruence).
        rewrite length_take, length_drop in Hlen. lia.
    + apply no_key_after_empty_page in E. specialize (Hprev E).
      rewrite drop_ge by lia. rewrite take_nil. reflexivity.
Qed.

(** X15.  Against an API that serves the list of trials for the current
    trial-id filters in pages of ten, once at least one page has been asked for the hook holds the
    first [10 * size] trials, and [allLoaded] is true exactly when there
    are no trials at all, or the list is shorter than [10 * size] and its
    length is not a multiple of ten.  When the number of trials is a
    positive multiple of ten, [allLoaded] is therefore never true,
    however many pages are loaded. *)
Theorem trials_loaded_in_pages (s : State) :
  trial_ids s = ids -> 1 <= size s ->
  trials (loadedData apiFetch tok s)
    = take (10 * Z.to_nat (size s)) all /\
  (allLoaded (loadedData apiFetch tok s) = true <->
     all = [] \/
     (Z.of_nat (length all) < 10 * size s /\ Z.of_nat (length all) mod 10 <> 0)) /\
  (all <> [] -> Z.of_nat (length all) mod 10 = 0 ->
     allLoaded (loadedData apiFetch tok s) = false).
Proof.
  intros Hids Hsize.
  assert (Htrials : trials (loadedData apiFetch tok s)
                    = take (10 * Z.to_nat (size s)) all).
  { unfold trials, loadedData. rewrite Hids.
    rewrite loadPages_concat by discriminate. rewrite Nat.mul_0_r. reflexivity. }
  assert (Hiff : allLoaded (loadedData apiFetch tok s) = true <->
     all = [] \/
     (Z.of_nat (length all) < 10 * size s /\ Z.of_nat (length all) mod 10 <> 0)).
  { unfold allLoaded, TRIALS_PER_PAGE. rewrite Htrials, length_take.
    rewrite orb_true_iff, negb_true_iff, Nat.eqb_eq, Z.eqb_neq.
    destruct (Nat.le_gt_cases (10 * Z.to_nat (size s)) (length all)) as [Hfull|Hshort].
    - rewrite Nat.min_l by assumption.
      replace (Z.of_nat (10 * Z.to_nat (size s))) with (size s * 10) by lia.
      rewrite Z.mod_mul by lia.
      split.
      + intros [H|H]; [lia|contradiction].
      + intros [->|[H _]]; [simpl in Hfull; lia|lia].
    - rewrite Nat.min_r by lia. split.
      + intros [H|H]; [left; apply length_zero_iff_nil; assumption|right; split; [lia|assumption]].
      + intros [->|[_ H]]; [left; reflexivity|right; assumption]. }
  split; [exact Htrials|]. split; [exact Hiff|].
  intros Hne Hmod. apply not_true_is_false. intros E.
  apply Hiff in E. destruct E as [E|[_ E]]; contradiction.
Qed.

End Pages.

Lemma trials_loaded_in_pages_witness :
  trials (loadedData sample_twenty "token" {| trial_ids := None; size := 3 |}) = seqZ 0 20 /\
  allLoaded (loadedData sample_twenty "token" {| trial_ids := None; size := 3 |}) = false.
Proof.
  destruct (trials_loaded_in_pages (seqZ 0 20) sample_twenty "token" None
              (fun key _ => eq_refl) {| trial_ids := None; size := 3 |})
    as (Htrials & _ & Hnever); [reflexivity|simpl; lia|].
  split; [exact Htrials|]. apply Hnever; [discriminate|reflexivity].
Defined.

(** ** The file bundle of a trial card *)

Lemma no_member_nil {A} (l : list A) : (forall x, ~ In x l) -> l = [].
Proof.
  destruct l as [|x l]; [reflexivity|]. intros H. exfalso. apply (H x). left. reflexivity.
Qed.

(** X16.  The card splits the file bundle by key: every entry is in the
    clinical bundle, in the assay bundle, or under the key "other", and
    in only one of these.  The card renders nothing exactly when every
    key of the bundle is "other".  The assay table gets one row per entry
    of the assay bundle, never the [null] it keeps for "other".  Every id
    offered by the clinical download button comes from a list held under
    "Participants Info" or "Samples Info", and the button is disabled
    when there is none or the user may not download. *)
Theorem trial_card_bundles (fileBundle : IFileBundle) :
  (forall kv, In kv fileBundle ->
     (In kv (clinicalBundle fileBundle) /\ ~ In kv (assayBundle fileBundle) /\ fst kv <> "other"%string) \/
     (~ In kv (clinicalBundle fileBundle) /\ In kv (assayBundle fileBundle) /\ fst kv <> "other"%string) \/
     (~ In kv (clinicalBundle fileBundle) /\ ~ In kv (assayBundle fileBundle) /\ fst kv = "other"%string)) /\
  (rendersNothing fileBundle = true <-> forall kv, In kv fileBundle -> fst kv = "other"%string) /\
  (length (assayRows (assayBundle fileBundle)) = length (assayBundle fileBundle) /\
   forall row, In row (assayRows (assayBundle fileBundle)) -> row <> None) /\
  (forall i, In i (clinicalIds fileBundle) ->
     exists key bundle purpose ids,
       In (key, bundle) fileBundle /\
       (key = "Participants Info"%string \/ key = "Samples Info"%string) /\
       In (purpose, Some ids) bundle /\ In i ids) /\
  (forall canDownload,
     downloadDisabled (clinicalIds fileBundle) (negb canDownload) = false <->
     clinicalIds fileBundle <> [] /\ canDownload = true).
Proof.
  assert (Hclin : forall kv, In kv (clinicalBundle fileBundle) <->
                    In kv fileBundle /\ isClinical (fst kv) = true)
    by (intros kv; apply filter_In).
  assert (Hassay : forall kv, In kv (assayBundle fileBundle) <->
                     In kv fileBundle /\ isClinical (fst kv) = false /\ fst kv <> "other"%string).
  { intros kv. unfold assayBundle. rewrite filter_In, negb_true_iff, orb_false_iff.
    rewrite String.eqb_neq. reflexivity. }
  split; [|split; [|split; [|split]]].
  - intros kv Hin. rewrite Hclin, Hassay.
    destruct (isClinical (fst kv)) eqn:Ec.
    + left. split; [tauto|]. split; [intros (_ & H & _); discriminate|].
      intros E. rewrite E in Ec. discriminate.
    + destruct (String.eqb_spec (fst kv) "other") as [E|E].
      * right. right. split; [intros [_ H]; discriminate|]. split; [tauto|assumption].
      * right. left. split; [intros [_ H]; discriminate|]. tauto.
  - unfold rendersNothing. rewrite andb_true_iff, !Nat.eqb_eq, !length_zero_iff_nil. split.
    + intros [Ha Hc] kv Hin.
      destruct (String.eqb_spec (fst kv) "other") as [E|E]; [assumption|exfalso].
      destruct (isClinical (fst kv)) eqn:Ec.
      * assert (H : In kv (clinicalBundle fileBundle)) by (apply Hclin; tauto).
        rewrite Hc in H. contradiction.
      * assert (H : In kv (assayBundle fileBundle)) by (apply Hassay; tauto).
        rewrite Ha in H. contradiction.
    + intros Hall. split; apply no_member_nil; intros kv H.
      * apply Hassay in H as (Hin & _ & Hne). apply Hne, Hall. assumption.
      * apply Hclin in H as (Hin & Hc). rewrite (Hall kv Hin) in Hc. discriminate.
  - split; [apply length_map|].
    intros row Hrow. unfold assayRows in Hrow. apply in_map_iff in Hrow as (kv & <- & Hkv).
    apply Hassay in Hkv as (_ & _ & Hne). apply String.eqb_neq in Hne. rewrite Hne. discriminate.
  - intros i Hi. unfold clinicalIds in Hi.
    apply in_flat_map in Hi as ([key bundle] & Hkv & Hi).
    apply in_flat_map in Hi as ([purpose v] & Hpv & Hi). simpl in *.
    destruct v as [ids|]; simpl in Hi; [|contradiction].
    apply Hclin in Hkv as (Hin & Hc). exists key, bundle, purpose, ids.
    split; [assumption|]. split; [|split; assumption].
    unfold isClinical, includes in Hc. simpl in Hc.
    rewrite !orb_true_iff, !String.eqb_eq in Hc. destruct Hc as [Hc|[Hc|Hc]]; [tauto|tauto|discriminate].
  - intros canDownload. unfold downloadDisabled.
    rewrite orb_false_iff, Nat.eqb_neq, negb_false_iff.
    rewrite <- length_zero_iff_nil. reflexivity.
Qed.

Lemma trial_card_bundles_witness :
  downloadDisabled (clinicalIds sample_bundle) (negb true) = false.
Proof.
  destruct (trial_card_bundles sample_bundle) as (_ & _ & _ & _ & Hbutton).
  apply Hbutton. split; [discriminate|reflexivity].
Defined.

End TrialTableSpec.

(** * Properties of the API helper *)

Module UtilitiesSpec.
Import Utilities.

(** X17.  Every request the helper builds carries the bearer token in its
    [Authorization] header, and for the same options all four methods
    address the same URI with the same body and query string.  [patch]
    never goes out as a PATCH request: it is a POST that names PATCH in
    [X-HTTP-METHOD-OVERRIDE], with the etag in [If-Match] exactly when a
    non-empty etag is given; [get], [post] and [delete] carry neither
    header. *)
Theorem helper_requests (base : string) (opts : IAPIHelperOptions) :
  (forall request, In request [get (createAPIHelper base); post (createAPIHelper base);
                               patch (createAPIHelper base); delete (createAPIHelper base)] ->
     Options.headers (request opts) !! "Authorization"%string
       = Some ("Bearer " +:+ template (token opts)) /\
     Options.uri (request opts) = Options.uri (get (createAPIHelper base) opts) /\
     Options.body (request opts) = body opts /\
     Options.qs (request opts) = parameters opts) /\
  Options.method (get (createAPIHelper base) opts) = "GET"%string /\
  Options.method (post (createAPIHelper base) opts) = "POST"%string /\
  Options.method (delete (createAPIHelper base) opts) = "DELETE"%string /\
  Options.method (patch (createAPIHelper base) opts) = "POST"%string /\
  Options.headers (patch (createAPIHelper base) opts) !! "X-HTTP-METHOD-OVERRIDE"%string
    = Some "PATCH"%string /\
  Options.headers (patch (createAPIHelper base) opts) !! "If-Match"%string
    = (if FilterProvider.nonempty (etag opts) then etag opts else None) /\
  (forall request, In request [get (createAPIHelper base); post (createAPIHelper base);
                               delete (createAPIHelper base)] ->
     Options.headers (request opts) !! "X-HTTP-METHOD-OVERRIDE"%string = None /\
     Options.headers (request opts) !! "If-Match"%string = None).
Proof.
  split; [|repeat split].
  - intros request [<-|[<-|[<-|[<-|[]]]]]; simpl;
      try (destruct (FilterProvider.nonempty (etag opts)); simpl);
      repeat split; reflexivity.
  - simpl. destruct (FilterProvider.nonempty (etag opts)); reflexivity.
  - simpl. destruct (FilterProvider.nonempty (etag opts)); reflexivity.
  - simpl. destruct (etag opts) as [e|]; simpl; [|reflexivity].
    destruct (negb _); reflexivity.
  - destruct H as [<-|[<-|[<-|[]]]]; reflexivity.
  - destruct H as [<-|[<-|[<-|[]]]]; reflexivity.
Qed.

Lemma helper_requests_witness :
  Options.headers (patch (createAPIHelper "https://api") sample_options) !! "Authorization"%string
    = Some "Bearer tok"%string.
Proof.
  destruct (helper_requests "https://api" sample_options) as (Hall & _).
  destruct (Hall (patch (createAPIHelper "https://api"))) as (Hauth & _).
  - right. right. left. reflexivity.
  - exact Hauth.
Defined.

End UtilitiesSpec.
